(** * The real-time layer of src/backend/routes.ts

    A shallow embedding of the WebSocket part of [registerRoutes]
    (src/backend/routes.ts, lines 10-14 and 431-516): the module-level map
    [connectedClients], the ['message'] and ['close'] handlers installed on
    every accepted socket, and [broadcastToClients].

    What is modelled, and how:
    - a socket object ([WebSocketClient]) is a record kept in a table of
      sockets and named by its index, so that the registry and the pending
      handlers alias the same mutable object, as in the source;
    - [connectedClients] is a JavaScript [Map]: an insertion-ordered
      association list (iteration order is what [forEach] observes);
    - the message handler is [async]: it is split at its two suspension
      points ([await import(...)] and [await mongoService.createMessage(...)])
      and the part after each [await] runs as a separate step, so that other
      handlers can run in between, as on the event loop;
    - calls that leave the process are recorded as events: [Send] for
      [ws.send], [Stringify] for [JSON.stringify], [CreateMessage] for
      [mongoService.createMessage].  [console.log] and [console.error] are
      not recorded;
    - [ws.send] does not throw (an accepted socket is never CONNECTING, and
      the ws library reports a send on a closing socket through the optional
      callback only). *)

From Stdlib Require Import ZArith Ascii String.
From stdpp Require Import base list strings pretty gmap.

Set Warnings "-register-all".

Open Scope string_scope.
Open Scope list_scope.

(** ** JavaScript values received in frames *)

(** The result of [JSON.parse]: numbers are kept as integers, the handlers
    only test them for truthiness; an object is the list of its own
    properties. *)
Inductive json : Type :=
| JNull
| JBool (b : bool)
| JNum (n : Z)
| JStr (s : string)
| JArr (xs : list json)
| JObj (fields : list (string * json)).

Fixpoint assoc (k : string) (fields : list (string * json)) : option json :=
  match fields with
  | [] => None
  | (k', v) :: rest => if String.eqb k k' then Some v else assoc k rest
  end.

(** [data.k] for a non-null [data] and one of the property names the handler
    reads ([type], [token], [receiverId], [conversationId], [content],
    [messageType]): [None] is [undefined].  Only objects carry them. *)
Definition get (data : json) (k : string) : option json :=
  match data with
  | JObj fields => assoc k fields
  | _ => None
  end.

(** [v === s] for a string literal [s]. *)
Definition is_string (v : option json) (s : string) : bool :=
  match v with
  | Some (JStr s') => String.eqb s' s
  | _ => false
  end.

(** JavaScript truthiness of a value read from a frame. *)
Definition truthy (v : option json) : bool :=
  match v with
  | None | Some JNull => false
  | Some (JBool b) => b
  | Some (JNum n) => negb (Z.eqb n 0)
  | Some (JStr s) => negb (String.eqb s EmptyString)
  | Some (JArr _) | Some (JObj _) => true
  end.

(** [a || b] on such values. *)
Definition or_else (a : option json) (b : json) : option json :=
  if truthy a then a else Some b.

(** ** Sockets, registry, collaborators *)

(** A socket is named by its index in the table of sockets. *)
Abbreviation conn := nat (only parsing).
Definition Date := Z.

Inductive ReadyState := CONNECTING | OPEN | CLOSING | CLOSED.

Definition ReadyState_eqb (a b : ReadyState) : bool :=
  match a, b with
  | CONNECTING, CONNECTING | OPEN, OPEN | CLOSING, CLOSING | CLOSED, CLOSED => true
  | _, _ => false
  end.

(** [interface WebSocketClient extends WebSocket { userId?: string }] *)
Record WebSocketClient := {
  userId : option string;
  readyState : ReadyState
}.

(** [interface JWTPayload] of src/authentication/auth.ts; the handler reads
    [userId] only. *)
Record JWTPayload := {
  jwt_userId : string;
  jwt_username : string;
  jwt_role : string
}.

(** The stored message that [createMessage] resolves to, as the value it
    serializes to. *)
Definition Message := json.

(** What the handler calls and this file does not define: the MongoDB
    driver's [ObjectId] constructor, the token check (the import of the
    authentication module, the construction of the service and
    [verifyAccessToken] together; [None] when any of them throws), and
    [JSON.stringify]. *)
Class Collaborators := {
  ObjectId : Type;
  ObjectId_new : option json -> option ObjectId;
  verifyAccessToken : option json -> option JWTPayload;
  JSON_stringify : json -> string
}.

(** ** [Map<string, WebSocketClient>] *)

Module JsMap.

Definition t := list (string * conn).

Definition keys (m : t) : list string := map fst m.

Fixpoint get (k : string) (m : t) : option conn :=
  match m with
  | [] => None
  | (k', v) :: rest => if String.eqb k k' then Some v else get k rest
  end.

(** [set] overwrites the value of an existing key in place and appends a
    new key at the end. *)
Fixpoint set (k : string) (v : conn) (m : t) : t :=
  match m with
  | [] => [(k, v)]
  | (k', v') :: rest =>
      if String.eqb k k' then (k', v) :: rest else (k', v') :: set k v rest
  end.

(** [delete] removes the entry of the key, if there is one. *)
Fixpoint delete (k : string) (m : t) : t :=
  match m with
  | [] => []
  | (k', v') :: rest =>
      if String.eqb k k' then rest else (k', v') :: delete k rest
  end.

(** [m.get(x)] for an arbitrary value [x]: keys are strings and are
    compared without coercion. *)
Definition get_value (x : option json) (m : t) : option conn :=
  match x with
  | Some (JStr k) => get k m
  | _ => None
  end.

(** The number of entries held for a key. *)
Definition count (k : string) (m : t) : nat :=
  length (List.filter (fun e => String.eqb k (fst e)) m).

End JsMap.

(** ** Server state *)

(** A handler suspended at an [await], with the variables it closes over. *)
Inductive task :=
| AwaitImport (ws : conn) (data : json)
| AwaitCreateMessage (ws : conn) (data : json).

Record server := {
  sockets : list WebSocketClient;
  connectedClients : JsMap.t;
  pending : list task
}.

Definition initial : server :=
  {| sockets := []; connectedClients := []; pending := [] |}.

Definition ws_userId (st : server) (ws : conn) : option string :=
  match sockets st !! ws with
  | Some w => userId w
  | None => None
  end.

Definition ws_readyState (st : server) (ws : conn) : option ReadyState :=
  readyState <$> sockets st !! ws.

(** [if (ws.userId)] *)
Definition truthy_userId (u : option string) : bool :=
  match u with
  | Some s => negb (String.eqb s EmptyString)
  | None => false
  end.

Definition set_userId (u : string) (w : WebSocketClient) : WebSocketClient :=
  {| userId := Some u; readyState := readyState w |}.

Definition set_readyState (r : ReadyState) (w : WebSocketClient) : WebSocketClient :=
  {| userId := userId w; readyState := r |}.

Definition with_sockets (st : server) (s : list WebSocketClient) : server :=
  {| sockets := s; connectedClients := connectedClients st; pending := pending st |}.

Definition with_connectedClients (st : server) (m : JsMap.t) : server :=
  {| sockets := sockets st; connectedClients := m; pending := pending st |}.

Definition with_pending (st : server) (p : list task) : server :=
  {| sockets := sockets st; connectedClients := connectedClients st; pending := p |}.

Definition suspend (st : server) (t : task) : server :=
  with_pending st (pending st ++ [t]).

(** ** Frames sent by the server *)

Definition authenticated_frame : json :=
  JObj [("type", JStr "authenticated"); ("success", JBool true)].

Definition authentication_error_frame : json :=
  JObj [("type", JStr "authentication_error"); ("message", JStr "Invalid token")].

Definition new_message_frame (message : Message) : json :=
  JObj [("type", JStr "new_message"); ("data", message)].

Definition message_sent_frame (message : Message) : json :=
  JObj [("type", JStr "message_sent"); ("data", message)].

Definition error_frame : json :=
  JObj [("type", JStr "error"); ("message", JStr "Invalid message format")].

Definition broadcast_frame (type : string) (data : json) : json :=
  JObj [("type", JStr type); ("data", data)].

Section Handlers.

Context `{C : Collaborators}.

(** The object literal [messageData] of the send_message branch. *)
Record MessageData := {
  senderId : ObjectId;
  receiverId : ObjectId;
  conversationId : option json;
  content : option json;
  type : option json;
  createdAt : Date
}.

Inductive event :=
| Stringify (v : json)
| Send (ws : conn) (payload : string)
| CreateMessage (md : MessageData).

(** [ws.send(JSON.stringify(v))] *)
Definition reply (ws : conn) (v : json) : list event :=
  [Stringify v; Send ws (JSON_stringify v)].

(** The ['message'] handler up to its first [await].  [parsed] is the
    outcome of [JSON.parse(message.toString())], [None] when it throws;
    reading [data.type] of [null] throws as well, and both land in the
    outer [catch]. *)
Definition on_message (st : server) (ws : conn) (parsed : option json)
    (now : Date) : server * list event :=
  match parsed with
  | None | Some JNull => (st, reply ws error_frame)
  | Some data =>
      if is_string (get data "type") "authenticate" then
        (suspend st (AwaitImport ws data), [])
      else if is_string (get data "type") "send_message"
              && truthy_userId (ws_userId st ws) then
        match ObjectId_new (JStr <$> ws_userId st ws),
              ObjectId_new (get data "receiverId") with
        | Some sender, Some receiver =>
            let messageData :=
              {| senderId := sender;
                 receiverId := receiver;
                 conversationId := get data "conversationId";
                 content := get data "content";
                 type := or_else (get data "messageType") (JStr "text");
                 createdAt := now |} in
            (suspend st (AwaitCreateMessage ws data), [CreateMessage messageData])
        | _, _ => (st, reply ws error_frame)
        end
      else (st, [])
  end.

(** The authenticate branch after [await import(...)]. *)
Definition resume_authenticate (st : server) (ws : conn) (data : json)
    : server * list event :=
  match verifyAccessToken (get data "token") with
  | Some decoded =>
      let st1 := with_sockets st
                   (alter (set_userId (jwt_userId decoded)) ws (sockets st)) in
      let st2 := with_connectedClients st1
                   (JsMap.set (jwt_userId decoded) ws (connectedClients st1)) in
      (st2, reply ws authenticated_frame)
  | None => (st, reply ws authentication_error_frame)
  end.

(** The send_message branch after [await mongoService.createMessage(...)]:
    [result] is the stored message, or [None] when the promise rejects. *)
Definition resume_send_message (st : server) (ws : conn) (data : json)
    (result : option Message) : server * list event :=
  match result with
  | Some message =>
      let to_receiver :=
        match JsMap.get_value (get data "receiverId") (connectedClients st) with
        | Some receiverWs => reply receiverWs (new_message_frame message)
        | None => []
        end in
      (st, to_receiver ++ reply ws (message_sent_frame message))
  | None => (st, reply ws error_frame)
  end.

(** The ['close'] handler; the socket is CLOSED when it runs. *)
Definition on_close (st : server) (ws : conn) : server :=
  let st1 := with_sockets st (alter (set_readyState CLOSED) ws (sockets st)) in
  match ws_userId st1 ws with
  | Some u =>
      if truthy_userId (Some u)
      then with_connectedClients st1 (JsMap.delete u (connectedClients st1))
      else st1
  | None => st1
  end.

(** [broadcastToClients(type, data)] *)
Definition broadcastToClients (st : server) (type : string) (data : json)
    : list event :=
  let message := JSON_stringify (broadcast_frame type data) in
  Stringify (broadcast_frame type data) ::
  flat_map (fun entry : string * conn =>
              match ws_readyState st (snd entry) with
              | Some r => if ReadyState_eqb r OPEN then [Send (snd entry) message] else []
              | None => []
              end)
           (connectedClients st).

(** ** The event loop *)

Inductive input :=
| Connection                                   (* wss 'connection' *)
| Incoming (ws : conn) (parsed : option json) (now : Date)   (* ws 'message' *)
| Settle (k : nat) (result : option Message)   (* the k-th suspended handler resumes *)
| Closing (ws : conn)                          (* the closing handshake starts *)
| Close (ws : conn)                            (* ws 'close' *)
| Broadcast (type : string) (data : json).     (* an HTTP handler broadcasts *)

Definition step (st : server) (i : input) : server * list event :=
  match i with
  | Connection =>
      (with_sockets st (sockets st ++ [{| userId := None; readyState := OPEN |}]), [])
  | Incoming ws parsed now =>
      match sockets st !! ws with
      | Some _ => on_message st ws parsed now
      | None => (st, [])
      end
  | Settle k result =>
      match pending st !! k with
      | Some (AwaitImport ws data) =>
          resume_authenticate (with_pending st (delete k (pending st))) ws data
      | Some (AwaitCreateMessage ws data) =>
          resume_send_message (with_pending st (delete k (pending st))) ws data result
      | None => (st, [])
      end
  | Closing ws =>
      (with_sockets st (alter (set_readyState CLOSING) ws (sockets st)), [])
  | Close ws => (on_close st ws, [])
  | Broadcast type data => (st, broadcastToClients st type data)
  end.

Fixpoint run (st : server) (ins : list input) : server * list event :=
  match ins with
  | [] => (st, [])
  | i :: rest =>
      let '(st1, evs1) := step st i in
      let '(st2, evs2) := run st1 rest in
      (st2, evs1 ++ evs2)
  end.

Definition reachable (st : server) : Prop :=
  exists ins, fst (run initial ins) = st.

End Handlers.

(** ** Observations on event traces *)

Section Observations.

Context `{C : Collaborators}.

(** The calls [ws.send(payload)] of a trace, in order. *)
Fixpoint sends (evs : list event) : list (conn * string) :=
  match evs with
  | [] => []
  | Send ws payload :: rest => (ws, payload) :: sends rest
  | _ :: rest => sends rest
  end.

(** The calls to [mongoService.createMessage] of a trace, in order. *)
Fixpoint persisted (evs : list event) : list MessageData :=
  match evs with
  | [] => []
  | CreateMessage md :: rest => md :: persisted rest
  | _ :: rest => persisted rest
  end.

(** The number of calls to [JSON.stringify] in a trace. *)
Fixpoint serializations (evs : list event) : nat :=
  match evs with
  | [] => 0
  | Stringify _ :: rest => S (serializations rest)
  | _ :: rest => serializations rest
  end.

(** The registered sockets whose transport is open, in registry order. *)
Definition is_open (st : server) (ws : conn) : bool :=
  match ws_readyState st ws with
  | Some r => ReadyState_eqb r OPEN
  | None => false
  end.

Definition open_clients (st : server) : list conn :=
  List.filter (is_open st) (map snd (connectedClients st)).

(** The registry holds at most one entry per key. *)
Definition registry_ok (st : server) : Prop :=
  NoDup (JsMap.keys (connectedClients st)).

End Observations.

(** ** A concrete set of collaborators

    Used to run the handlers on examples: identities are 24-digit
    hexadecimal strings, as [ObjectId.toString()] prints them; a token is
    valid when it reads [jwt.] followed by the identity it was issued for. *)

Module Demo.

Definition is_hex (a : ascii) : bool :=
  let n := nat_of_ascii a in
  (Nat.leb 48 n && Nat.leb n 57) || (Nat.leb 97 n && Nat.leb n 102)
  || (Nat.leb 65 n && Nat.leb n 70).

Definition objectid (x : option json) : option string :=
  match x with
  | None => Some "000000000000000000000000"
  | Some (JStr s) =>
      if Nat.eqb (String.length s) 24 && forallb is_hex (list_ascii_of_string s)
      then Some s else None
  | Some _ => None
  end.

Definition verify (token : option json) : option JWTPayload :=
  match token with
  | Some (JStr s) =>
      if String.prefix "jwt." s
      then Some {| jwt_userId := String.substring 4 (String.length s - 4) s;
                   jwt_username := "user";
                   jwt_role := "user" |}
      else None
  | _ => None
  end.

Definition quote : string := String (ascii_of_nat 34) EmptyString.

Fixpoint stringify (v : json) : string :=
  match v with
  | JNull => "null"
  | JBool true => "true"
  | JBool false => "false"
  | JNum n => pretty n
  | JStr s => quote +:+ s +:+ quote
  | JArr xs =>
      "[" +:+ (fix items (l : list json) : string :=
                 match l with
                 | [] => EmptyString
                 | [x] => stringify x
                 | x :: rest => stringify x +:+ "," +:+ items rest
                 end) xs +:+ "]"
  | JObj fields =>
      "{" +:+ (fix members (l : list (string * json)) : string :=
                 match l with
                 | [] => EmptyString
                 | [(k, x)] => quote +:+ k +:+ quote +:+ ":" +:+ stringify x
                 | (k, x) :: rest =>
                     quote +:+ k +:+ quote +:+ ":" +:+ stringify x +:+ ","
                     +:+ members rest
                 end) fields +:+ "}"
  end.

Definition collaborators : Collaborators :=
  {| ObjectId := string;
     ObjectId_new := objectid;
     verifyAccessToken := verify;
     JSON_stringify := stringify |}.

Definition alice : string := "aaaaaaaaaaaaaaaaaaaaaaaa".
Definition bob : string := "bbbbbbbbbbbbbbbbbbbbbbbb".

Definition authenticate (u : string) : json :=
  JObj [("type", JStr "authenticate"); ("token", JStr ("jwt." +:+ u))].

Definition bad_authenticate : json :=
  JObj [("type", JStr "authenticate"); ("token", JStr "expired")].

Definition send_message (to text : string) : json :=
  JObj [("type", JStr "send_message"); ("receiverId", JStr to);
        ("conversationId", JStr "c1"); ("content", JStr text)].

Definition typing_start (target : string) : json :=
  JObj [("type", JStr "typing_start"); ("targetUserId", JStr target)].

Definition bogus : json := JObj [("type", JStr "bogus")].

Definition stored (text : string) : Message :=
  JObj [("_id", JStr "cccccccccccccccccccccccc"); ("content", JStr text)].

(** One accepted socket, not authenticated. *)
Definition one_socket : server :=
  fst (run (C := collaborators) initial [Connection]).

(** Socket 0 is authenticated as alice, socket 1 as bob. *)
Definition alice_and_bob : list input :=
  [Connection; Connection;
   Incoming 0 (Some (authenticate alice)) 0%Z; Settle 0 None;
   Incoming 1 (Some (authenticate bob)) 0%Z; Settle 0 None].

(** Alice authenticates on socket 0, then again on socket 1. *)
Definition two_tabs : list input :=
  [Connection; Connection;
   Incoming 0 (Some (authenticate alice)) 0%Z; Settle 0 None;
   Incoming 1 (Some (authenticate alice)) 0%Z; Settle 0 None].

(** Socket 0 authenticates as alice and has sent a second authenticate
    frame, for bob, that is still suspended. *)
Definition switching : list input :=
  [Connection;
   Incoming 0 (Some (authenticate alice)) 0%Z; Settle 0 None;
   Incoming 0 (Some (authenticate bob)) 0%Z].

Definition alice_and_bob_state : server :=
  fst (run (C := collaborators) initial alice_and_bob).

Definition two_tabs_state : server :=
  fst (run (C := collaborators) initial two_tabs).

Definition switching_state : server :=
  fst (run (C := collaborators) initial switching).

End Demo.
(** ** Sentences of the specification, as it words them

    Stated over the handlers above, to be compared with what the handlers
    do. *)

Section Specification.

Context `{C : Collaborators}.

(** "unbound connections sending any other frame type receive an error
    response and the frame is discarded (no side effect)" *)
Definition spec_unauthenticated_frame_rejected
    (st : server) (ws : conn) (data : json) (now : Date) : Prop :=
  truthy_userId (ws_userId st ws) = false ->
  is_string (get data "type") "authenticate" = false ->
  let '(st', evs) := step st (Incoming ws (Some data) now) in
  (exists payload, In (ws, payload) (sends evs))
  /\ persisted evs = [] /\ st' = st.

(** "closing the now-unregistered connection A never removes B's entry" *)
Definition spec_close_keeps_newer_binding
    (st : server) (A B : conn) (u : string) : Prop :=
  ws_userId st A = Some u ->
  A <> B ->
  JsMap.get u (connectedClients st) = Some B ->
  JsMap.get u (connectedClients (fst (step st (Close A)))) = Some B.

(** "[content] must be non-empty after trimming": the strings that
    [trim()] empties, over the ASCII white space and line terminators. *)
Definition is_white_space (a : ascii) : bool :=
  let n := nat_of_ascii a in
  (Nat.leb 9 n && Nat.leb n 13) || Nat.eqb n 32.

Definition blank_after_trim (s : string) : bool :=
  forallb is_white_space (list_ascii_of_string s).

(** "unrecognized [type] values produce an [error] outbound frame" *)
Definition spec_unknown_type_gets_error
    (st : server) (ws : conn) (data : json) (now : Date) : Prop :=
  data <> JNull ->
  is_string (get data "type") "authenticate" = false ->
  is_string (get data "type") "send_message" = false ->
  let '(st', evs) := step st (Incoming ws (Some data) now) in
  sends evs = [(ws, JSON_stringify error_frame)] /\ st' = st.

End Specification.

(** ** The authentication middleware

    [AuthMiddleware] (the middleware module that src/backend/routes.ts
    imports): [authenticate], which guards every route mounted under [/api]
    after the authentication routes, and [rateLimitAuth], which
    src/authentication/routes.ts mounts on [/auth]. *)

(** [s.split(sep)] for a separator of one character. *)
Fixpoint split (sep : ascii) (s : string) : list string :=
  match s with
  | EmptyString => [EmptyString]
  | String c rest =>
      if Ascii.eqb c sep then EmptyString :: split sep rest
      else match split sep rest with
           | [] => [String c EmptyString]
           | word :: words => String c word :: words
           end
  end.

(** The strings without a space character. *)
Definition no_space (t : string) : bool :=
  forallb (fun c => negb (Ascii.eqb c " ")) (list_ascii_of_string t).

(** What [authenticate] does with a request: it answers 401 with a message
    (and, when verification threw, the text of the error), or it stores the
    decoded token in [req.user], its [userId] in [req.userId], and calls
    [next]. *)
Inductive auth_decision :=
| Unauthorized (message : string) (error : option string)
| Next (user : JWTPayload) (userId : string).

(** [interface RateLimitAttempt] *)
Record RateLimitAttempt := {
  count : nat;
  resetTime : Z
}.

Definition maxAttempts : nat := 5.
Definition windowMs : Z := 15 * 60 * 1000.

(** What the rate limiter does with a request: [next()], or 429 with
    [retryAfter]. *)
Inductive limit_decision :=
| Pass
| TooMany (retryAfter : Z).

(** [req.ip || req.socket.remoteAddress || 'unknown'] *)
Definition client_id (ip remoteAddress : option string) : string :=
  match ip with
  | Some a => if String.eqb a EmptyString
              then match remoteAddress with
                   | Some b => if String.eqb b EmptyString then "unknown" else b
                   | None => "unknown"
                   end
              else a
  | None => match remoteAddress with
            | Some b => if String.eqb b EmptyString then "unknown" else b
            | None => "unknown"
            end
  end.

(** [Math.ceil(x / 1000)] for an integer [x]. *)
Definition ceil_seconds (x : Z) : Z := (- ((- x) / 1000))%Z.

(** The function that [rateLimitAuth()] returns, on the [attempts] map that
    it closes over; [now] is [Date.now()]. *)
Definition rateLimit (attempts : gmap string RateLimitAttempt)
    (clientId : string) (now : Z)
    : gmap string RateLimitAttempt * limit_decision :=
  match attempts !! clientId with
  | None =>
      (<[clientId := {| count := 1; resetTime := (now + windowMs)%Z |}]> attempts,
       Pass)
  | Some clientAttempts =>
      if (resetTime clientAttempts <? now)%Z then
        (<[clientId := {| count := 1; resetTime := (now + windowMs)%Z |}]> attempts,
         Pass)
      else if Nat.leb maxAttempts (count clientAttempts) then
        (attempts, TooMany (ceil_seconds (resetTime clientAttempts - now)))
      else
        (<[clientId := {| count := S (count clientAttempts);
                          resetTime := resetTime clientAttempts |}]> attempts,
         Pass)
  end.

(** A sequence of requests, each a client and a time, through one limiter. *)
Fixpoint rateLimit_all (attempts : gmap string RateLimitAttempt)
    (requests : list (string * Z))
    : gmap string RateLimitAttempt * list (string * limit_decision) :=
  match requests with
  | [] => (attempts, [])
  | (clientId, now) :: rest =>
      let '(attempts1, d) := rateLimit attempts clientId now in
      let '(attempts2, ds) := rateLimit_all attempts1 rest in
      (attempts2, (clientId, d) :: ds)
  end.

(** The number of requests of a client that were let through. *)
Definition passes (clientId : string) (ds : list (string * limit_decision)) : nat :=
  length (List.filter
            (fun d => String.eqb (fst d) clientId
                      && match snd d with Pass => true | TooMany _ => false end)
            ds).

(** The requests that a client made. *)
Definition requests_of (clientId : string) (requests : list (string * Z))
    : list Z :=
  map snd (List.filter (fun r => String.eqb (fst r) clientId) requests).

(** The limiter as src/authentication/routes.ts, line 31, mounts it:
    [router.use('/auth', (req, res, next) =>
       getAuthMiddleware().rateLimitAuth()(req, res, next))].
    [rateLimitAuth()] is called for every request, and every call makes a
    new [attempts] map. *)
Definition mounted_rateLimit (clientId : string) (now : Z) : limit_decision :=
  snd (rateLimit ∅ clientId now).

Section Middleware.

(** [this.authService.verifyAccessToken], [None] when it throws. *)
Variable verify : string -> option JWTPayload.

(** The function that [authenticate()] returns, on
    [req.headers.authorization]. *)
Definition authenticate (authHeader : option string) : auth_decision :=
  match authHeader with
  | None => Unauthorized "Access token required" None
  | Some h =>
      if String.eqb h EmptyString || negb (String.prefix "Bearer " h) then
        Unauthorized "Access token required" None
      else
        match split " " h !! 1 with
        | Some token =>
            match verify token with
            | Some decoded => Next decoded (jwt_userId decoded)
            | None =>
                Unauthorized "Invalid or expired token"
                             (Some "Invalid or expired access token")
            end
        | None =>
            Unauthorized "Invalid or expired token"
                         (Some "Invalid or expired access token")
        end
  end.

End Middleware.

(** ** The HTTP routes of [registerRoutes] that change data

    src/backend/routes.ts, lines 63-90 and 123-374.  Each handler is [async]
    and awaits the store once or twice; what the store answers is an
    argument of the model ([Resolved] or [Rejected]), and the calls that the
    handler makes to the store are returned in order.  A handler reads the
    registry only when it broadcasts, after its last [await]: [st] is the
    server state at that moment.  [req.userId] is the string that the
    authentication middleware stored, [req.params.id] is a string, and
    [req.body] is [None] when it is [undefined]. *)

(** What an awaited store call settles to; a rejection carries
    [error.message] when the thrown value is an [Error]. *)
Inductive outcome (A : Type) : Type :=
| Resolved (a : A)
| Rejected (message : option string).

Arguments Resolved {A} a.
Arguments Rejected {A} message.

(** [res.status(status).json(body)] *)
Record Response := {
  status : nat;
  body : json
}.

(** [error instanceof Error && error.message === text] *)
Definition has_message (message : option string) (text : string) : bool :=
  match message with
  | Some m => String.eqb m text
  | None => false
  end.

Definition message_body (message : string) : json :=
  JObj [("message", JStr message)].

Definition is_success (s : nat) : bool := Nat.leb 200 s && Nat.ltb s 300.

(** [a || b] when a value, not [undefined], is wanted. *)
Definition or_default (a : option json) (b : json) : json :=
  match a with
  | Some v => if truthy a then v else b
  | None => b
  end.

(** What [getPostById] resolves to, as far as the delete handler looks:
    [null], or a post, of which it reads [post.userId.toString()] (the
    [Post] interface declares [userId: ObjectId]). *)
Inductive found_post :=
| NoPost
| PostOf (owner : string).

(** The calls to [mongoService], with the parts of their arguments that
    vary.  The constant parts are left out: [mentionedUsers: []] of a post,
    [type: 'post'] of a like, [isAccepted: true] of a follow, and the
    [type], [title] and [content] of the follow notification. *)
Inductive store_call :=
| UpdateUser (userId : string) (updates : list (string * json))
| GetUserById (userId : string)
| CreatePost (userId content : string) (images hashtags : json)
             (createdAt updatedAt : Date)
| GetPostById (postId : string)
| DeletePost (postId : string)
| CreateComment (postId userId content : string) (parentId : json)
                (createdAt updatedAt : Date)
| CreateLike (userId postId : string) (createdAt : Date)
| RemoveLike (userId postId : string)
| CreateFollow (followerId followingId : string) (createdAt : Date)
| CreateNotification (userId fromUserId : string) (createdAt : Date)
| RemoveFollow (followerId followingId : string).

(** The outcome of [!content || content.trim().length === 0] and of the
    [content.trim()] that follows it. *)
Inductive content_check :=
| Blank                      (* the test holds: 400 *)
| NotAString                 (* [content.trim] is not a function: TypeError *)
| Text (trimmed : string).

(** [allowedFields] of PATCH /api/users/profile *)
Definition allowedFields : list string :=
  ["firstName"; "lastName"; "bio"; "website"; "location"; "profilePicture"].

(** [allowedFields.includes(key)] *)
Definition includes (l : list string) (k : string) : bool :=
  existsb (String.eqb k) l.

Section Http.

Context `{C : Collaborators}.

(** [String.prototype.trim] *)
Variable trim : string -> string.

Record HttpResult := {
  response : Response;
  calls : list store_call;
  pushed : list event
}.

Definition respond (s : nat) (b : json) (cs : list store_call) : HttpResult :=
  {| response := {| status := s; body := b |}; calls := cs; pushed := [] |}.

Definition check_content (content : option json) : content_check :=
  if truthy content then
    match content with
    | Some (JStr s) =>
        if String.eqb (trim s) EmptyString then Blank else Text (trim s)
    | _ => NotAString
    end
  else Blank.

(** The loop over [Object.entries(updates)] that fills [filteredUpdates]:
    [None] when [Object.entries] throws.  The entries of a string or of an
    array have index keys, which are not allowed fields. *)
Definition filter_updates (updates : option json) : option (list (string * json)) :=
  match updates with
  | None | Some JNull => None
  | Some (JObj fields) =>
      Some (List.filter (fun entry => includes allowedFields (fst entry)) fields)
  | Some _ => Some []
  end.

(** PATCH /api/users/profile *)
Definition update_profile (userId : string) (updates : option json)
    (updated : outcome nat) (reread : outcome json) : HttpResult :=
  match filter_updates updates with
  | None => respond 500 (message_body "Failed to update profile") []
  | Some filteredUpdates =>
      match updated with
      | Rejected _ =>
          respond 500 (message_body "Failed to update profile")
                  [UpdateUser userId filteredUpdates]
      | Resolved modifiedCount =>
          if Nat.eqb modifiedCount 0 then
            respond 404 (message_body "User not found")
                    [UpdateUser userId filteredUpdates]
          else
            match reread with
            | Resolved updatedUser =>
                respond 200 updatedUser
                        [UpdateUser userId filteredUpdates; GetUserById userId]
            | Rejected _ =>
                respond 500 (message_body "Failed to update profile")
                        [UpdateUser userId filteredUpdates; GetUserById userId]
            end
      end
  end.

(** POST /api/posts *)
Definition create_post (st : server) (userId : string) (reqBody : option json)
    (now now' : Date) (created : outcome json) : HttpResult :=
  match reqBody with
  | None | Some JNull => respond 500 (message_body "Failed to create post") []
  | Some b =>
      match check_content (get b "content") with
      | Blank => respond 400 (message_body "Post content is required") []
      | NotAString => respond 500 (message_body "Failed to create post") []
      | Text content =>
          let call := CreatePost userId content
                        (or_default (get b "images") (JArr []))
                        (or_default (get b "hashtags") (JArr []))
                        now now' in
          match created with
          | Resolved post =>
              {| response := {| status := 201; body := post |};
                 calls := [call];
                 pushed := broadcastToClients st "new_post" post |}
          | Rejected _ =>
              respond 500 (message_body "Failed to create post") [call]
          end
      end
  end.

(** DELETE /api/posts/:id *)
Definition delete_post (st : server) (postId userId : string)
    (found : outcome found_post) (deleted : outcome unit) : HttpResult :=
  match found with
  | Rejected _ =>
      respond 500 (message_body "Failed to delete post") [GetPostById postId]
  | Resolved NoPost =>
      respond 404 (message_body "Post not found") [GetPostById postId]
  | Resolved (PostOf owner) =>
      if String.eqb owner userId then
        match deleted with
        | Resolved _ =>
            {| response := {| status := 200;
                              body := message_body "Post deleted successfully" |};
               calls := [GetPostById postId; DeletePost postId];
               pushed := broadcastToClients st "post_deleted"
                           (JObj [("postId", JStr postId)]) |}
        | Rejected _ =>
            respond 500 (message_body "Failed to delete post")
                    [GetPostById postId; DeletePost postId]
        end
      else
        respond 403 (message_body "Not authorized to delete this post")
                [GetPostById postId]
  end.

(** POST /api/posts/:id/comments *)
Definition create_comment (st : server) (postId userId : string)
    (reqBody : option json) (now now' : Date) (created : outcome json)
    : HttpResult :=
  match reqBody with
  | None | Some JNull => respond 500 (message_body "Failed to create comment") []
  | Some b =>
      match check_content (get b "content") with
      | Blank => respond 400 (message_body "Comment content is required") []
      | NotAString => respond 500 (message_body "Failed to create comment") []
      | Text content =>
          let call := CreateComment postId userId content
                        (or_default (get b "parentId") JNull) now now' in
          match created with
          | Resolved comment =>
              {| response := {| status := 201; body := comment |};
                 calls := [call];
                 pushed := broadcastToClients st "new_comment" comment |}
          | Rejected _ =>
              respond 500 (message_body "Failed to create comment") [call]
          end
      end
  end.

(** POST /api/posts/:id/like *)
Definition like_post (st : server) (postId userId : string) (now : Date)
    (created : outcome json) : HttpResult :=
  match created with
  | Resolved like =>
      {| response := {| status := 201; body := like |};
         calls := [CreateLike userId postId now];
         pushed := broadcastToClients st "post_liked"
                     (JObj [("postId", JStr postId); ("userId", JStr userId)]) |}
  | Rejected message =>
      if has_message message "Already liked" then
        respond 409 (message_body "Post already liked")
                [CreateLike userId postId now]
      else
        respond 500 (message_body "Failed to like post")
                [CreateLike userId postId now]
  end.

(** DELETE /api/posts/:id/like; the store resolves to [deletedCount]. *)
Definition unlike_post (st : server) (postId userId : string)
    (removed : outcome nat) : HttpResult :=
  match removed with
  | Resolved deletedCount =>
      if Nat.eqb deletedCount 0 then
        respond 404 (message_body "Like not found") [RemoveLike userId postId]
      else
        {| response := {| status := 200;
                          body := message_body "Post unliked successfully" |};
           calls := [RemoveLike userId postId];
           pushed := broadcastToClients st "post_unliked"
                       (JObj [("postId", JStr postId); ("userId", JStr userId)]) |}
  | Rejected _ =>
      respond 500 (message_body "Failed to unlike post") [RemoveLike userId postId]
  end.

(** The [catch] of POST /api/users/:id/follow *)
Definition follow_failure (message : option string) (cs : list store_call)
    : HttpResult :=
  if has_message message "Already following" then
    respond 409 (message_body "Already following this user") cs
  else respond 500 (message_body "Failed to follow user") cs.

(** POST /api/users/:id/follow *)
Definition follow_user (st : server) (followingId followerId : string)
    (now now' : Date) (followed : outcome json) (notified : outcome unit)
    : HttpResult :=
  if String.eqb followerId followingId then
    respond 400 (message_body "Cannot follow yourself") []
  else
    match followed with
    | Rejected message =>
        follow_failure message [CreateFollow followerId followingId now]
    | Resolved follow =>
        let cs := [CreateFollow followerId followingId now;
                   CreateNotification followingId followerId now'] in
        match notified with
        | Rejected message => follow_failure message cs
        | Resolved _ =>
            {| response := {| status := 201; body := follow |};
               calls := cs;
               pushed := broadcastToClients st "new_follow"
                           (JObj [("followerId", JStr followerId);
                                  ("followingId", JStr followingId)]) |}
        end
    end.

(** DELETE /api/users/:id/follow *)
Definition unfollow_user (st : server) (followingId followerId : string)
    (removed : outcome nat) : HttpResult :=
  match removed with
  | Resolved deletedCount =>
      if Nat.eqb deletedCount 0 then
        respond 404 (message_body "Follow relationship not found")
                [RemoveFollow followerId followingId]
      else
        {| response := {| status := 200;
                          body := message_body "Unfollowed successfully" |};
           calls := [RemoveFollow followerId followingId];
           pushed := broadcastToClients st "unfollow"
                       (JObj [("followerId", JStr followerId);
                              ("followingId", JStr followingId)]) |}
  | Rejected _ =>
      respond 500 (message_body "Failed to unfollow user")
              [RemoveFollow followerId followingId]
  end.

(** The two guards that [registerRoutes] mounts on [/api] in front of the
    routes above, in this order: [checkDatabaseConnection], then
    [authenticate].  [handler] is the route, given [req.userId]. *)
Definition protected (verify : string -> option JWTPayload) (dbConnected : bool)
    (authHeader : option string) (handler : string -> HttpResult) : HttpResult :=
  if dbConnected then
    match authenticate verify authHeader with
    | Next _ userId => handler userId
    | Unauthorized message None =>
        respond 401 (JObj [("success", JBool false); ("message", JStr message)]) []
    | Unauthorized message (Some error) =>
        respond 401 (JObj [("success", JBool false); ("message", JStr message);
                           ("error", JStr error)]) []
    end
  else
    respond 503
      (JObj [("message", JStr "Database offline - feature not available");
             ("hint", JStr "Set MONGODB_URL environment variable to enable database features")])
      [].

(** The seven routes that broadcast, with what each request carries and
    what the store answers to it. *)
Inductive request :=
| PostPost (userId : string) (reqBody : option json) (now now' : Date)
           (created : outcome json)
| DeletePostById (postId userId : string) (found : outcome found_post)
                 (deleted : outcome unit)
| PostComment (postId userId : string) (reqBody : option json) (now now' : Date)
              (created : outcome json)
| PostLike (postId userId : string) (now : Date) (created : outcome json)
| DeleteLike (postId userId : string) (removed : outcome nat)
| PostFollow (followingId followerId : string) (now now' : Date)
             (followed : outcome json) (notified : outcome unit)
| DeleteFollow (followingId followerId : string) (removed : outcome nat).

Definition handle (st : server) (r : request) : HttpResult :=
  match r with
  | PostPost userId reqBody now now' created =>
      create_post st userId reqBody now now' created
  | DeletePostById postId userId found deleted =>
      delete_post st postId userId found deleted
  | PostComment postId userId reqBody now now' created =>
      create_comment st postId userId reqBody now now' created
  | PostLike postId userId now created => like_post st postId userId now created
  | DeleteLike postId userId removed => unlike_post st postId userId removed
  | PostFollow followingId followerId now now' followed notified =>
      follow_user st followingId followerId now now' followed notified
  | DeleteFollow followingId followerId removed =>
      unfollow_user st followingId followerId removed
  end.

(** The event type that a route broadcasts. *)
Definition event_type (r : request) : string :=
  match r with
  | PostPost _ _ _ _ _ => "new_post"
  | DeletePostById _ _ _ _ => "post_deleted"
  | PostComment _ _ _ _ _ _ => "new_comment"
  | PostLike _ _ _ _ => "post_liked"
  | DeleteLike _ _ _ => "post_unliked"
  | PostFollow _ _ _ _ _ _ => "new_follow"
  | DeleteFollow _ _ _ => "unfollow"
  end.

End Http.

(** ** The store's [createMessage]

    [MongoService.create], [update], [updateConversation] and
    [createMessage] (the service layer that src/shared/mongoConfig.ts
    carries after the configuration), down to the calls that they make on
    the driver's collections.  A document is the list of its properties;
    [V] is the type of their values.  What the driver answers is an
    argument, and so is each [new Date()]. *)

Section Store.

Variable V : Type.

(** A [Date] as a value of a document. *)
Variable date_value : Date -> V.

Definition document := list (string * V).

(** [d.k] *)
Fixpoint field (k : string) (d : document) : option V :=
  match d with
  | [] => None
  | (k', v) :: rest => if String.eqb k k' then Some v else field k rest
  end.

(** [d.k = v], and [{...d, k: v}]: the property keeps its place when the
    document has it and comes last when it does not. *)
Fixpoint assign (k : string) (v : V) (d : document) : document :=
  match d with
  | [] => [(k, v)]
  | (k', v') :: rest =>
      if String.eqb k k' then (k', v) :: rest else (k', v') :: assign k v rest
  end.

(** The calls on a collection: [insertOne(document)], and
    [updateOne(query, {$set})], where a value that the service reads from a
    document may be [undefined]. *)
Inductive driver_call :=
| InsertOne (collection : string) (d : document)
| UpdateOne (collection : string) (query : list (string * option V))
            (set : list (string * option V)).

Definition not_connected : option string :=
  Some "Database not connected. Call connect() first.".

(** [create(collection, document)]; [connected] tells whether
    [mongoConfig.getCollection] returns or throws. *)
Definition create (connected : bool) (collection : string) (d : document)
    (now now' : Date) (inserted : outcome V)
    : list driver_call * outcome document :=
  if connected then
    let d1 := assign "updatedAt" (date_value now')
                (assign "createdAt" (date_value now) d) in
    ([InsertOne collection d1],
     match inserted with
     | Resolved insertedId => Resolved (assign "_id" insertedId d1)
     | Rejected message => Rejected message
     end)
  else ([], Rejected not_connected).

(** [{...set, updatedAt: new Date()}] on a [$set] whose values may be
    [undefined]. *)
Fixpoint assign_set (k : string) (v : option V) (set : list (string * option V))
    : list (string * option V) :=
  match set with
  | [] => [(k, v)]
  | (k', v') :: rest =>
      if String.eqb k k' then (k', v) :: rest else (k', v') :: assign_set k v rest
  end.

(** [update(collection, query, {$set})] *)
Definition update (connected : bool) (collection : string)
    (query set : list (string * option V)) (now : Date) (updated : outcome unit)
    : list driver_call * outcome unit :=
  if connected then
    ([UpdateOne collection query
        (assign_set "updatedAt" (Some (date_value now)) set)],
     updated)
  else ([], Rejected not_connected).

(** [updateConversation(conversationId, lastMessage)] *)
Definition updateConversation (connected : bool) (conversationId : option V)
    (lastMessage : document) (now now' : Date) (updated : outcome unit)
    : list driver_call * outcome unit :=
  update connected "conversations"
    [("conversationId", conversationId)]
    [("lastMessage", field "_id" lastMessage);
     ("lastMessageAt", field "createdAt" lastMessage);
     ("updatedAt", Some (date_value now))]
    now' updated.

(** [createMessage(messageData)]; the four dates are those of the four
    [new Date()] that it reaches, in order, and [connected] and
    [connected'] tell whether the database is connected when [create] and
    when [update] ask for their collection. *)
Definition createMessage (connected connected' : bool) (messageData : document)
    (now1 now2 now3 now4 : Date) (inserted : outcome V) (updated : outcome unit)
    : list driver_call * outcome document :=
  match create connected "messages" messageData now1 now2 inserted with
  | (calls1, Resolved message) =>
      match updateConversation connected' (field "conversationId" messageData)
              message now3 now4 updated with
      | (calls2, Resolved _) => (calls1 ++ calls2, Resolved message)
      | (calls2, Rejected error) => (calls1 ++ calls2, Rejected error)
      end
  | (calls1, Rejected error) => (calls1, Rejected error)
  end.

(** What the suspended [send_message] handler is resumed with, given how a
    stored document serializes. *)
Definition settled (to_json : document -> Message) (r : outcome document)
    : option Message :=
  match r with
  | Resolved message => Some (to_json message)
  | Rejected _ => None
  end.

End Store.

(** ** States of the event loop and frames of the client *)

Definition task_socket (t : task) : nat :=
  match t with
  | AwaitImport ws _ => ws
  | AwaitCreateMessage ws _ => ws
  end.

(** The frames that the client's [useWebSocket] hook sends: [{type: 'auth',
    userId}] when the socket opens, and [typing_start] and [typing_stop]
    with a [targetUserId]. *)
Definition hook_frame (data : json) : bool :=
  is_string (get data "type") "auth"
  || is_string (get data "type") "typing_start"
  || is_string (get data "type") "typing_stop".

Section Sessions.

Context `{C : Collaborators}.

(** An input that can occur when every client is the hook. *)
Definition hook_input (i : input) : bool :=
  match i with
  | Incoming _ (Some data) _ => hook_frame data
  | Incoming _ None _ => false
  | _ => true
  end.

(** Every socket that the registry or a suspended handler names has been
    accepted, and the ones that the registry or a handler suspended on the
    store names carry a [userId]. *)
Definition sound (st : server) : Prop :=
  (forall u ws, In (u, ws) (connectedClients st) ->
     exists w u', sockets st !! ws = Some w /\ userId w = Some u')
  /\ (forall k t, pending st !! k = Some t ->
        exists w, sockets st !! task_socket t = Some w
                  /\ match t with
                     | AwaitCreateMessage _ _ => exists u', userId w = Some u'
                     | AwaitImport _ _ => True
                     end).

End Sessions.

(** ** More concrete collaborators *)

Module Demo2.

Fixpoint trim_start (s : string) : string :=
  match s with
  | EmptyString => EmptyString
  | String c rest => if is_white_space c then trim_start rest else s
  end.

Definition reverse (s : string) : string :=
  string_of_list_ascii (List.rev (list_ascii_of_string s)).

(** [trim] over ASCII white space. *)
Definition trim (s : string) : string :=
  reverse (trim_start (reverse (trim_start s))).

Definition verify (token : string) : option JWTPayload :=
  Demo.verify (Some (JStr token)).

(** The frame that the hook sends when its socket opens. *)
Definition hook_auth (userId : string) : json :=
  JObj [("type", JStr "auth"); ("userId", JStr userId)].

(** A session of one hook client, while a post is broadcast. *)
Definition hook_session : list input :=
  [Connection;
   Incoming 0 (Some (hook_auth Demo.alice)) 0%Z;
   Incoming 0 (Some (Demo.typing_start Demo.bob)) 1%Z;
   Broadcast "new_post" (Demo.stored "hello");
   Close 0].

(** The message that [Demo.send_message Demo.bob "hi"] from alice stores. *)
Definition hi_to_bob : MessageData (C := Demo.collaborators) :=
  {| senderId := Demo.alice : ObjectId (Collaborators := Demo.collaborators);
     receiverId := Demo.bob : ObjectId (Collaborators := Demo.collaborators);
     conversationId := Some (JStr "c1");
     content := Some (JStr "hi");
     type := Some (JStr "text");
     createdAt := 7%Z |}.

(** A document of strings, as the message that alice sends to bob. *)
Definition message_document : document string :=
  [("senderId", Demo.alice); ("receiverId", Demo.bob);
   ("conversationId", "c1"); ("content", "hi"); ("createdAt", "then")].

Definition date_string (d : Date) : string := pretty d.

Definition document_json (d : document string) : Message :=
  JObj (map (fun p => (fst p, JStr (snd p))) d).

(** A limiter that holds a full count for one client, whose window ends at
    time 1000. *)
Definition full_limiter : gmap string RateLimitAttempt :=
  {[ "c" := {| count := 5; resetTime := 1000 |} ]}.

End Demo2.

(** * Properties *)

(** ** The map operations *)

Module JsMapFacts.

Import JsMap.

Lemma get_set_eq k v m : get k (set k v m) = Some v.
Proof.
  induction m as [|[k' v'] m IH]; simpl.
  - by rewrite String.eqb_refl.
  - destruct (String.eqb_spec k k') as [->|Hne]; simpl.
    + by rewrite String.eqb_refl.
    + destruct (String.eqb_spec k k'); [done|apply IH].
Qed.

Lemma get_set_ne k k' v m : k <> k' -> get k' (set k v m) = get k' m.
Proof.
  intros Hne. induction m as [|[k0 v0] m IH]; simpl.
  - destruct (String.eqb_spec k' k); [congruence|done].
  - destruct (String.eqb_spec k k0) as [->|Hk]; simpl.
    + destruct (String.eqb_spec k' k0); [congruence|done].
    + destruct (String.eqb_spec k' k0); [done|apply IH].
Qed.

Lemma get_None_keys k m : get k m = None <-> ~ In k (keys m).
Proof.
  induction m as [|[k' v'] m IH]; simpl; [tauto|].
  destruct (String.eqb_spec k k') as [->|Hne].
  - split; [done|]. intros H. exfalso. apply H. by left.
  - rewrite IH. split.
    + intros H [Heq|Hin]; [congruence|tauto].
    + tauto.
Qed.

Lemma keys_set k v m :
  keys (set k v m) =
  match get k m with Some _ => keys m | None => keys m ++ [k] end.
Proof.
  induction m as [|[k' v'] m IH]; simpl; [done|].
  destruct (String.eqb_spec k k') as [->|Hne]; simpl; [done|].
  rewrite IH. by destruct (get k m).
Qed.

Lemma length_set_bound k v m old :
  get k m = Some old -> length (set k v m) = length m.
Proof.
  intros H. rewrite <- (length_map fst (set k v m)), <- (length_map fst m).
  change (length (keys (set k v m)) = length (keys m)).
  by rewrite keys_set, H.
Qed.

Lemma NoDup_set k v m : NoDup (keys m) -> NoDup (keys (set k v m)).
Proof.
  intros Hnd. rewrite keys_set.
  destruct (get k m) eqn:Hget; [done|].
  apply NoDup_app. split; [done|]. split.
  - intros x Hx Hx'. apply list_elem_of_In in Hx, Hx'.
    destruct Hx' as [<-|[]]. by apply get_None_keys in Hget.
  - apply NoDup_singleton.
Qed.

Lemma keys_delete_incl k m x : In x (keys (delete k m)) -> In x (keys m).
Proof.
  induction m as [|[k' v'] m IH]; simpl; [done|].
  destruct (String.eqb_spec k k'); simpl; tauto.
Qed.

Lemma NoDup_delete k m : NoDup (keys m) -> NoDup (keys (delete k m)).
Proof.
  induction m as [|[k' v'] m IH]; simpl; [done|].
  intros Hnd. apply NoDup_cons in Hnd as [Hnotin Hnd].
  destruct (String.eqb_spec k k'); simpl; [done|].
  apply NoDup_cons. split; [|by apply IH].
  intros Hin. apply Hnotin. apply list_elem_of_In.
  apply (keys_delete_incl k). by apply list_elem_of_In.
Qed.

Lemma get_delete_eq k m : NoDup (keys m) -> get k (delete k m) = None.
Proof.
  induction m as [|[k' v'] m IH]; simpl; [done|].
  intros Hnd. apply NoDup_cons in Hnd as [Hnotin Hnd].
  destruct (String.eqb_spec k k') as [->|Hne]; simpl.
  - apply get_None_keys. intros Hin. apply Hnotin. by apply list_elem_of_In.
  - destruct (String.eqb_spec k k'); [done|by apply IH].
Qed.

Lemma get_delete_ne k k' m : k <> k' -> get k' (delete k m) = get k' m.
Proof.
  intros Hne. induction m as [|[k0 v0] m IH]; simpl; [done|].
  destruct (String.eqb_spec k k0) as [->|Hk]; simpl.
  - destruct (String.eqb_spec k' k0); [congruence|done].
  - destruct (String.eqb_spec k' k0); [done|apply IH].
Qed.

Lemma count_NoDup k m : NoDup (keys m) -> count k m <= 1.
Proof.
  unfold count. induction m as [|[k' v'] m IH]; simpl; [lia|].
  intros Hnd. apply NoDup_cons in Hnd as [Hnotin Hnd].
  destruct (String.eqb_spec k k') as [->|Hne]; simpl; [|by apply IH].
  assert (Hz : List.filter (fun e => String.eqb k' (fst e)) m = []).
  { clear -Hnotin. induction m as [|[k0 v0] m IH]; simpl; [done|].
    destruct (String.eqb_spec k' k0) as [->|Hne].
    - exfalso. apply Hnotin. simpl. left.
    - apply IH. intros Hin. apply Hnotin. simpl. by right. }
  rewrite Hz. simpl. lia.
Qed.

End JsMapFacts.

(** ** The event loop keeps the registry well formed *)

Section Invariant.

Context `{C : Collaborators}.

Lemma lookup_suspended (l : list task) (t : task) :
  (l ++ [t]) !! length l = Some t.
Proof. induction l as [|x l IH]; simpl; [done|apply IH]. Qed.

Lemma delete_suspended (l : list task) (t : task) :
  delete (length l) (l ++ [t]) = l.
Proof. induction l as [|x l IH]; simpl; [done|]. f_equal. apply IH. Qed.

Lemma with_pending_suspend st t :
  with_pending (suspend st t) (delete (length (pending st)) (pending (suspend st t))) = st.
Proof. destruct st as [s m p]. unfold with_pending, suspend. simpl. by rewrite delete_suspended. Qed.

Lemma on_message_registry st ws parsed now :
  connectedClients (fst (on_message st ws parsed now)) = connectedClients st.
Proof. unfold on_message. repeat case_match; done. Qed.

Lemma on_message_sockets st ws parsed now :
  sockets (fst (on_message st ws parsed now)) = sockets st.
Proof. unfold on_message. repeat case_match; done. Qed.

Lemma step_registry_ok st i : registry_ok st -> registry_ok (fst (step st i)).
Proof.
  unfold registry_ok. intros Hok. destruct i; simpl; try done.
  - case_match; [|done]. by rewrite on_message_registry.
  - repeat case_match; try done.
    + unfold resume_authenticate. case_match; simpl; [|done].
      by apply JsMapFacts.NoDup_set.
    + unfold resume_send_message. by case_match.
  - unfold on_close. repeat case_match; simpl; try done.
    by apply JsMapFacts.NoDup_delete.
Qed.

Lemma run_registry_ok ins : forall st,
  registry_ok st -> registry_ok (fst (run st ins)).
Proof.
  induction ins as [|i ins IH]; intros st Hok; simpl; [done|].
  destruct (step st i) as [st1 evs1] eqn:Hstep.
  specialize (IH st1). destruct (run st1 ins) as [st2 evs2]. simpl in *.
  apply IH. replace st1 with (fst (step st i)) by (by rewrite Hstep).
  by apply step_registry_ok.
Qed.

Lemma reachable_registry_ok st : reachable st -> registry_ok st.
Proof.
  intros [ins <-]. apply run_registry_ok. unfold registry_ok. simpl. apply NoDup_nil_2.
Qed.

Lemma reachable_step st i : reachable st -> reachable (fst (step st i)).
Proof.
  intros [ins <-]. exists (ins ++ [i]).
  generalize initial. induction ins as [|j ins IH]; intros st0; simpl.
  - by destruct (step st0 i).
  - destruct (step st0 j) as [st1 evs1]. specialize (IH st1).
    destruct (run st1 (ins ++ [i])), (run st1 ins). simpl in *. done.
Qed.

End Invariant.

(** ** Frames that no branch of the handler takes *)

Section Dispatch.

Context `{C : Collaborators}.

Lemma is_string_eq v a b :
  is_string v a = true -> a <> b -> is_string v b = false.
Proof.
  destruct v as [[]|]; simpl; try done.
  intros Ha Hne. apply String.eqb_eq in Ha as ->. by apply String.eqb_neq.
Qed.

(** A parsed, non-null frame that is neither [authenticate] nor a
    [send_message] on a socket with a truthy [userId] falls through both
    tests: the handler returns without doing anything. *)
Lemma on_message_falls_through st ws data now :
  data <> JNull ->
  is_string (get data "type") "authenticate" = false ->
  is_string (get data "type") "send_message"
    && truthy_userId (ws_userId st ws) = false ->
  on_message st ws (Some data) now = (st, []).
Proof.
  intros Hnull Hauth Hsend. unfold on_message.
  rewrite Hauth, Hsend. by destruct data.
Qed.

Lemma step_incoming_falls_through st ws data now :
  data <> JNull ->
  is_string (get data "type") "authenticate" = false ->
  is_string (get data "type") "send_message"
    && truthy_userId (ws_userId st ws) = false ->
  step st (Incoming ws (Some data) now) = (st, []).
Proof.
  intros. simpl. case_match; [|done]. by apply on_message_falls_through.
Qed.

Lemma step_settle_authenticate st k ws data result :
  pending st !! k = Some (AwaitImport ws data) ->
  step st (Settle k result)
  = resume_authenticate (with_pending st (delete k (pending st))) ws data.
Proof. intros H. simpl. by rewrite H. Qed.

Lemma step_settle_send_message st k ws data result :
  pending st !! k = Some (AwaitCreateMessage ws data) ->
  step st (Settle k result)
  = resume_send_message (with_pending st (delete k (pending st))) ws data result.
Proof. intros H. simpl. by rewrite H. Qed.

Lemma ws_userId_lookup st ws w :
  sockets st !! ws = Some w -> ws_userId st ws = userId w.
Proof. intros H. unfold ws_userId. by rewrite H. Qed.

End Dispatch.

(** ** Frames from sockets that have not authenticated *)

Section Unauthenticated.

Context `{C : Collaborators}.

(** C1, as the handler has it: a frame other than [authenticate] that
    arrives on a socket whose [userId] is unset is dropped without any
    reply, without a call to the store and without any change of the
    server state.  The only reply such a socket can get is the generic
    error frame, and it gets it only for the JSON value [null], on which
    reading [data.type] throws. *)
Theorem unauthenticated_frame_discarded st ws w data now :
  sockets st !! ws = Some w ->
  truthy_userId (userId w) = false ->
  is_string (get data "type") "authenticate" = false ->
  step st (Incoming ws (Some data) now)
  = (st, match data with JNull => reply ws error_frame | _ => [] end).
Proof.
  intros Hws Hu Hauth.
  assert (Hsend : is_string (get data "type") "send_message"
                  && truthy_userId (ws_userId st ws) = false).
  { rewrite (ws_userId_lookup _ _ _ Hws), Hu. apply andb_false_r. }
  destruct data; try (by apply step_incoming_falls_through).
  simpl. by rewrite Hws.
Qed.

Lemma userId_alter_readyState (l : list WebSocketClient) r ws ws' :
  (userId <$> alter (set_readyState r) ws' l !! ws) = (userId <$> l !! ws).
Proof.
  destruct (decide (ws' = ws)) as [->|Hne].
  - rewrite list_lookup_alter_eq. by destruct (l !! ws).
  - by rewrite list_lookup_alter_ne.
Qed.

Lemma ws_userId_fmap st ws :
  ws_userId st ws = mjoin (userId <$> sockets st !! ws).
Proof. unfold ws_userId. by destruct (sockets st !! ws). Qed.

(** A socket's [userId] goes from unset to set in one way only: the
    handler of an [authenticate] frame received on that socket resumes and
    the token passes verification. *)
Lemma userId_set_by_authentication_only st i ws u :
  ws_userId st ws = None ->
  ws_userId (fst (step st i)) ws = Some u ->
  exists k result data decoded,
    i = Settle k result
    /\ pending st !! k = Some (AwaitImport ws data)
    /\ verifyAccessToken (get data "token") = Some decoded
    /\ u = jwt_userId decoded.
Proof.
  rewrite !ws_userId_fmap. intros Hnone Hsome.
  destruct i as [|ws' parsed now|k result|ws'|ws'|ty d]; cbn [step fst] in Hsome.
  - exfalso. cbn [sockets with_sockets] in Hsome.
    destruct (decide (ws < length (sockets st))) as [Hlt|Hge].
    + rewrite lookup_app_l in Hsome by done. congruence.
    + rewrite lookup_app_r in Hsome by lia.
      destruct (ws - length (sockets st)) as [|[|n]]; cbn in Hsome; congruence.
  - exfalso. destruct (sockets st !! ws'); cbn [fst] in Hsome; [|congruence].
    rewrite on_message_sockets in Hsome. congruence.
  - destruct (pending st !! k) as [[ws' data|ws' data]|] eqn:Hk;
      cbn [fst] in Hsome; [| |congruence].
    + unfold resume_authenticate in Hsome.
      destruct (verifyAccessToken (get data "token")) as [decoded|] eqn:Hv;
        [|cbn in Hsome; congruence].
      cbn [fst sockets with_sockets with_connectedClients with_pending] in Hsome.
      destruct (decide (ws' = ws)) as [->|Hne].
      * rewrite list_lookup_alter_eq in Hsome.
        destruct (sockets st !! ws); cbn in Hsome; [|done].
        exists k, result, data, decoded. repeat split; congruence.
      * rewrite list_lookup_alter_ne in Hsome by done. congruence.
    + exfalso. unfold resume_send_message in Hsome.
      destruct result; cbn in Hsome; congruence.
  - exfalso. cbn [sockets with_sockets] in Hsome.
    rewrite userId_alter_readyState in Hsome. congruence.
  - exfalso. unfold on_close in Hsome.
    repeat case_match;
      cbn [sockets with_sockets with_connectedClients] in Hsome;
      rewrite userId_alter_readyState in Hsome; congruence.
  - exfalso. congruence.
Qed.

End Unauthenticated.

Lemma unauthenticated_frame_discarded_witness :
  step (C := Demo.collaborators) Demo.one_socket
       (Incoming 0 (Some (Demo.send_message Demo.bob "hi")) 0%Z)
  = (Demo.one_socket, []).
Proof.
  apply (unauthenticated_frame_discarded (C := Demo.collaborators)
           Demo.one_socket 0 {| userId := None; readyState := OPEN |}
           (Demo.send_message Demo.bob "hi") 0%Z); reflexivity.
Defined.

(** C1, as the specification words it, fails: a fresh socket that sends
    [send_message] is sent nothing at all, so it receives no error
    response. *)
Lemma unauthenticated_send_message_gets_no_reply :
  ~ spec_unauthenticated_frame_rejected (C := Demo.collaborators)
      Demo.one_socket 0 (Demo.send_message Demo.bob "hi") 0%Z.
Proof.
  intros H. specialize (H eq_refl eq_refl). vm_compute in H.
  destruct H as [[payload []] _].
Qed.

(** ** Frames of a type the handler does not know *)

Section UnknownType.

Context `{C : Collaborators}.

(** C7, as the handler has it: a frame that parses to a value other than
    [null] and whose [type] is neither [authenticate] nor [send_message]
    is ignored: nothing is sent, nothing is stored, and the server state,
    the socket included, is what it was, so later frames are handled as
    if this one had not arrived. *)
Theorem unknown_type_ignored st ws data now :
  data <> JNull ->
  is_string (get data "type") "authenticate" = false ->
  is_string (get data "type") "send_message" = false ->
  step st (Incoming ws (Some data) now) = (st, []).
Proof.
  intros Hnull Hauth Hsend. apply step_incoming_falls_through; try done.
  by rewrite Hsend.
Qed.

(** C9, at the code: a [typing_start] or [typing_stop] frame is handled
    like any other unknown type.  Nothing is forwarded to anybody and
    nothing changes. *)
Theorem typing_frame_not_forwarded st ws data now :
  is_string (get data "type") "typing_start" = true
  \/ is_string (get data "type") "typing_stop" = true ->
  step st (Incoming ws (Some data) now) = (st, []).
Proof.
  intros Htype. apply step_incoming_falls_through.
  - intros ->. by destruct Htype.
  - destruct Htype as [H|H]; by apply (is_string_eq _ _ _ H).
  - replace (is_string (get data "type") "send_message") with false; [done|].
    symmetry. destruct Htype as [H|H]; by apply (is_string_eq _ _ _ H).
Qed.

End UnknownType.

Lemma unknown_type_ignored_witness :
  step (C := Demo.collaborators) Demo.alice_and_bob_state
       (Incoming 0 (Some Demo.bogus) 0%Z)
  = (Demo.alice_and_bob_state, []).
Proof.
  apply (unknown_type_ignored (C := Demo.collaborators)); [discriminate|reflexivity..].
Defined.

(** C7, as the specification words it, fails: a frame of type [bogus] is
    answered with nothing, not with one [error] frame. *)
Lemma bogus_type_gets_no_error_frame :
  ~ spec_unknown_type_gets_error (C := Demo.collaborators)
      Demo.alice_and_bob_state 0 Demo.bogus 0%Z.
Proof.
  intros H. specialize (H ltac:(discriminate) eq_refl eq_refl).
  vm_compute in H. destruct H as [H _]. discriminate H.
Qed.

(** Alice, authenticated on socket 0, tells bob, authenticated on socket 1,
    that she is typing: bob's socket is sent nothing. *)
Lemma typing_frame_not_forwarded_witness :
  step (C := Demo.collaborators) Demo.alice_and_bob_state
       (Incoming 0 (Some (Demo.typing_start Demo.bob)) 0%Z)
  = (Demo.alice_and_bob_state, [])
  /\ JsMap.get Demo.bob (connectedClients Demo.alice_and_bob_state) = Some 1.
Proof.
  split; [|reflexivity].
  apply (typing_frame_not_forwarded (C := Demo.collaborators)).
  left. reflexivity.
Defined.

(** ** The registry: one entry per identity, last writer wins *)

Section Registry.

Context `{C : Collaborators}.

Lemma resume_authenticate_success st ws data decoded :
  verifyAccessToken (get data "token") = Some decoded ->
  resume_authenticate st ws data
  = ({| sockets := alter (set_userId (jwt_userId decoded)) ws (sockets st);
        connectedClients :=
          JsMap.set (jwt_userId decoded) ws (connectedClients st);
        pending := pending st |},
     reply ws authenticated_frame).
Proof. intros H. unfold resume_authenticate. by rewrite H. Qed.

Lemma settle_authenticate_success st k ws data decoded result :
  pending st !! k = Some (AwaitImport ws data) ->
  verifyAccessToken (get data "token") = Some decoded ->
  step st (Settle k result)
  = ({| sockets := alter (set_userId (jwt_userId decoded)) ws (sockets st);
        connectedClients :=
          JsMap.set (jwt_userId decoded) ws (connectedClients st);
        pending := delete k (pending st) |},
     reply ws authenticated_frame).
Proof.
  intros Hk Hv. rewrite (step_settle_authenticate _ _ _ _ _ Hk).
  by rewrite (resume_authenticate_success _ _ _ _ Hv).
Qed.

Lemma close_bound st ws w u :
  sockets st !! ws = Some w ->
  userId w = Some u ->
  u <> EmptyString ->
  step st (Close ws)
  = ({| sockets := alter (set_readyState CLOSED) ws (sockets st);
        connectedClients := JsMap.delete u (connectedClients st);
        pending := pending st |}, []).
Proof.
  intros Hws Hu Hne. apply String.eqb_neq in Hne.
  cbn [step]. unfold on_close, ws_userId. cbn [sockets with_sockets].
  rewrite list_lookup_alter_eq, Hws. cbn. rewrite Hu. cbn. by rewrite Hne.
Qed.

(** C3: in every state the event loop can reach, the registry holds at
    most one entry for each identity; when an [authenticate] frame passes
    verification, the identity resolves to the socket that sent it, the
    other identities resolve as before, the registry still holds at most
    one entry per identity, and if the identity was bound already its
    entry is overwritten, not added to. *)
Theorem registry_one_entry_last_writer_wins st :
  reachable st ->
  (forall u, JsMap.count u (connectedClients st) <= 1)
  /\ forall k ws data decoded result,
       pending st !! k = Some (AwaitImport ws data) ->
       verifyAccessToken (get data "token") = Some decoded ->
       let st' := fst (step st (Settle k result)) in
       JsMap.get (jwt_userId decoded) (connectedClients st') = Some ws
       /\ (forall u, u <> jwt_userId decoded ->
             JsMap.get u (connectedClients st') = JsMap.get u (connectedClients st))
       /\ (forall u, JsMap.count u (connectedClients st') <= 1)
       /\ (forall old,
             JsMap.get (jwt_userId decoded) (connectedClients st) = Some old ->
             length (connectedClients st') = length (connectedClients st)).
Proof.
  intros Hreach. pose proof (reachable_registry_ok _ Hreach) as Hok.
  split; [intros u; by apply JsMapFacts.count_NoDup|].
  intros k ws data decoded result Hk Hv st'.
  assert (Hok' : registry_ok st').
  { apply step_registry_ok, Hok. }
  subst st'. rewrite (settle_authenticate_success _ _ _ _ _ _ Hk Hv) in *.
  simpl in *. repeat split.
  - apply JsMapFacts.get_set_eq.
  - intros u Hu. by apply JsMapFacts.get_set_ne.
  - intros u. by apply JsMapFacts.count_NoDup.
  - intros old Hold. by apply (JsMapFacts.length_set_bound _ _ _ old).
Qed.

(** C2, as the handler has it: when a socket closes, the registry entry of
    the identity stored on the socket is removed, whichever socket that
    entry names; the other identities are left alone.  So once an identity
    has authenticated again on a newer socket, closing the older socket
    removes the newer socket's entry and the identity no longer resolves. *)
Theorem close_removes_entry_of_identity st ws w u :
  reachable st ->
  sockets st !! ws = Some w ->
  userId w = Some u ->
  u <> EmptyString ->
  let st' := fst (step st (Close ws)) in
  JsMap.get u (connectedClients st') = None
  /\ (forall u', u' <> u ->
        JsMap.get u' (connectedClients st') = JsMap.get u' (connectedClients st))
  /\ ws_readyState st' ws = Some CLOSED.
Proof.
  intros Hreach Hws Hu Hne st'. subst st'.
  rewrite (close_bound _ _ _ _ Hws Hu Hne). simpl. repeat split.
  - apply JsMapFacts.get_delete_eq. by apply reachable_registry_ok.
  - intros u' Hu'. by apply JsMapFacts.get_delete_ne.
  - unfold ws_readyState. simpl. by rewrite list_lookup_alter_eq, Hws.
Qed.

Lemma close_unbound st ws w :
  sockets st !! ws = Some w ->
  truthy_userId (userId w) = false ->
  step st (Close ws)
  = (with_sockets st (alter (set_readyState CLOSED) ws (sockets st)), []).
Proof.
  intros Hws Hu. cbn [step]. unfold on_close, ws_userId.
  cbn [sockets with_sockets]. rewrite list_lookup_alter_eq, Hws. cbn.
  destruct (userId w) as [u|]; [|done]. cbn in Hu |- *. by rewrite Hu.
Qed.

(** C10: a socket registered under identity A that authenticates again as
    a different identity B is registered under both; when it closes, B's
    entry is removed (unless B is the empty string, which the close
    handler takes for no identity) and every other entry stays, A's among
    them, which then names a closed socket. *)
Theorem reauthentication_leaves_stale_entry st ws w k data decoded result A :
  reachable st ->
  sockets st !! ws = Some w ->
  JsMap.get A (connectedClients st) = Some ws ->
  pending st !! k = Some (AwaitImport ws data) ->
  verifyAccessToken (get data "token") = Some decoded ->
  jwt_userId decoded <> A ->
  let B := jwt_userId decoded in
  let st1 := fst (step st (Settle k result)) in
  let st2 := fst (step st1 (Close ws)) in
  (JsMap.get A (connectedClients st1) = Some ws
   /\ JsMap.get B (connectedClients st1) = Some ws
   /\ ws_userId st1 ws = Some B)
  /\ (JsMap.get A (connectedClients st2) = Some ws
      /\ JsMap.get B (connectedClients st2)
         = (if String.eqb B EmptyString then Some ws else None)
      /\ (forall u, u <> B ->
            JsMap.get u (connectedClients st2) = JsMap.get u (connectedClients st1))
      /\ ws_readyState st2 ws = Some CLOSED).
Proof.
  intros Hreach Hws HA Hk Hv HBA B st1 st2.
  assert (Hreach1 : reachable st1) by (by apply reachable_step).
  assert (Hws1 : sockets st1 !! ws = Some (set_userId B w)).
  { subst st1. rewrite (settle_authenticate_success _ _ _ _ _ _ Hk Hv). simpl.
    by rewrite list_lookup_alter_eq, Hws. }
  assert (HA1 : JsMap.get A (connectedClients st1) = Some ws).
  { subst st1. rewrite (settle_authenticate_success _ _ _ _ _ _ Hk Hv). simpl.
    by rewrite JsMapFacts.get_set_ne. }
  assert (HB1 : JsMap.get B (connectedClients st1) = Some ws).
  { subst st1. rewrite (settle_authenticate_success _ _ _ _ _ _ Hk Hv). simpl.
    apply JsMapFacts.get_set_eq. }
  split; [repeat split; try done; by rewrite (ws_userId_lookup _ _ _ Hws1)|].
  subst st2. destruct (String.eqb_spec B EmptyString) as [HB|HB].
  - rewrite (close_unbound st1 ws _ Hws1) by (simpl; by rewrite HB).
    simpl. repeat split; try done.
    unfold ws_readyState. simpl. by rewrite list_lookup_alter_eq, Hws1.
  - rewrite (close_bound st1 ws _ B Hws1 eq_refl HB). simpl.
    repeat split.
    + rewrite JsMapFacts.get_delete_ne; done.
    + apply JsMapFacts.get_delete_eq. by apply reachable_registry_ok.
    + intros u Hu. by apply JsMapFacts.get_delete_ne.
    + unfold ws_readyState. simpl. by rewrite list_lookup_alter_eq, Hws1.
Qed.

End Registry.

Lemma demo_reachable (ins : list input) :
  reachable (C := Demo.collaborators)
    (fst (run (C := Demo.collaborators) initial ins)).
Proof. by exists ins. Defined.

(** Alice is bound to socket 0 and her second [authenticate] frame, sent
    from socket 1, is about to be verified: afterwards she resolves to
    socket 1 and the registry still has one entry for her. *)
Lemma registry_one_entry_last_writer_wins_witness :
  let st := fst (run (C := Demo.collaborators) initial
                   [Connection; Connection;
                    Incoming 0 (Some (Demo.authenticate Demo.alice)) 0%Z;
                    Settle 0 None;
                    Incoming 1 (Some (Demo.authenticate Demo.alice)) 0%Z]) in
  JsMap.get Demo.alice (connectedClients st) = Some 0
  /\ JsMap.get Demo.alice
       (connectedClients (fst (step (C := Demo.collaborators) st (Settle 0 None))))
     = Some 1
  /\ JsMap.count Demo.alice
       (connectedClients (fst (step (C := Demo.collaborators) st (Settle 0 None))))
     <= 1.
Proof.
  intros st. split; [reflexivity|].
  destruct (registry_one_entry_last_writer_wins (C := Demo.collaborators) st
              (demo_reachable _)) as [_ H].
  destruct (H 0 1 (Demo.authenticate Demo.alice)
              {| jwt_userId := Demo.alice; jwt_username := "user"; jwt_role := "user" |}
              None eq_refl eq_refl) as (Hget & _ & Hcount & _).
  split; [exact Hget|exact (Hcount Demo.alice)].
Defined.

(** Alice authenticated on socket 0 and then on socket 1; socket 0 closes
    and alice no longer resolves. *)
Lemma close_removes_entry_of_identity_witness :
  JsMap.get Demo.alice (connectedClients Demo.two_tabs_state) = Some 1
  /\ JsMap.get Demo.alice
       (connectedClients
          (fst (step (C := Demo.collaborators) Demo.two_tabs_state (Close 0))))
     = None.
Proof.
  split; [reflexivity|].
  apply (close_removes_entry_of_identity (C := Demo.collaborators)
           Demo.two_tabs_state 0
           {| userId := Some Demo.alice; readyState := OPEN |} Demo.alice
           (demo_reachable _) eq_refl eq_refl).
  discriminate.
Defined.

(** C2, as the specification words it, fails: alice authenticates on
    socket 0 and then on socket 1; closing socket 0 removes the entry that
    names socket 1. *)
Lemma close_of_older_socket_removes_newer_binding :
  ~ spec_close_keeps_newer_binding (C := Demo.collaborators)
      Demo.two_tabs_state 0 1 Demo.alice.
Proof.
  intros H. specialize (H eq_refl ltac:(discriminate) eq_refl).
  vm_compute in H. discriminate H.
Qed.

(** Socket 0 is alice's and authenticates as bob: both identities resolve
    to it, and after it closes alice still does. *)
Lemma reauthentication_leaves_stale_entry_witness :
  let st1 := fst (step (C := Demo.collaborators) Demo.switching_state (Settle 0 None)) in
  let st2 := fst (step (C := Demo.collaborators) st1 (Close 0)) in
  (JsMap.get Demo.alice (connectedClients st1) = Some 0
   /\ JsMap.get Demo.bob (connectedClients st1) = Some 0
   /\ ws_userId st1 0 = Some Demo.bob)
  /\ (JsMap.get Demo.alice (connectedClients st2) = Some 0
      /\ JsMap.get Demo.bob (connectedClients st2) = None
      /\ (forall u, u <> Demo.bob ->
            JsMap.get u (connectedClients st2) = JsMap.get u (connectedClients st1))
      /\ ws_readyState st2 0 = Some CLOSED).
Proof.
  apply (reauthentication_leaves_stale_entry (C := Demo.collaborators)
           Demo.switching_state 0
           {| userId := Some Demo.alice; readyState := OPEN |} 0
           (Demo.authenticate Demo.bob)
           {| jwt_userId := Demo.bob; jwt_username := "user"; jwt_role := "user" |}
           None Demo.alice (demo_reachable _) eq_refl eq_refl eq_refl eq_refl).
  discriminate.
Defined.

(** ** Authentication failures *)

Section Authentication.

Context `{C : Collaborators}.

Lemma on_message_authenticate st ws data now :
  is_string (get data "type") "authenticate" = true ->
  on_message st ws (Some data) now = (suspend st (AwaitImport ws data), []).
Proof.
  intros H. unfold on_message. rewrite H. by destruct data.
Qed.

Lemma authenticate_round st ws w data now result :
  sockets st !! ws = Some w ->
  is_string (get data "type") "authenticate" = true ->
  run st [Incoming ws (Some data) now; Settle (length (pending st)) result]
  = (fst (resume_authenticate st ws data), snd (resume_authenticate st ws data)).
Proof.
  intros Hws Htype. cbn [run step]. rewrite Hws.
  rewrite (on_message_authenticate _ _ _ _ Htype).
  cbn [pending suspend with_pending]. rewrite lookup_suspended.
  pose proof (with_pending_suspend st (AwaitImport ws data)) as Hback.
  cbn [pending suspend with_pending] in Hback.
  fold (suspend st (AwaitImport ws data)). rewrite Hback.
  destruct (resume_authenticate st ws data). simpl. by rewrite app_nil_r.
Qed.

(** C8: when the token of an [authenticate] frame fails verification, the
    only effect is one [authentication_error] frame sent to the socket
    that sent the frame.  The table of sockets (so the socket's [userId]
    and [readyState]) and the registry are what they were, whether the
    handler runs in one piece or other handlers run while it is
    suspended; and a later [authenticate] frame with a good token on the
    same socket binds it. *)
Theorem failed_authentication_changes_nothing st ws w data now :
  sockets st !! ws = Some w ->
  is_string (get data "type") "authenticate" = true ->
  verifyAccessToken (get data "token") = None ->
  let attempt := [Incoming ws (Some data) now; Settle (length (pending st)) None] in
  run st attempt = (st, reply ws authentication_error_frame)
  /\ sends (snd (run st attempt)) = [(ws, JSON_stringify authentication_error_frame)]
  /\ (forall st' k result,
        pending st' !! k = Some (AwaitImport ws data) ->
        sockets (fst (step st' (Settle k result))) = sockets st'
        /\ connectedClients (fst (step st' (Settle k result))) = connectedClients st'
        /\ snd (step st' (Settle k result)) = reply ws authentication_error_frame)
  /\ (forall data' now' decoded,
        is_string (get data' "type") "authenticate" = true ->
        verifyAccessToken (get data' "token") = Some decoded ->
        let st2 := fst (run (fst (run st attempt))
                          [Incoming ws (Some data') now';
                           Settle (length (pending st)) None]) in
        ws_userId st2 ws = Some (jwt_userId decoded)
        /\ JsMap.get (jwt_userId decoded) (connectedClients st2) = Some ws).
Proof.
  intros Hws Htype Hv attempt.
  assert (Hrun : run st attempt = (st, reply ws authentication_error_frame)).
  { subst attempt. rewrite (authenticate_round _ _ _ _ _ _ Hws Htype).
    unfold resume_authenticate. by rewrite Hv. }
  split; [exact Hrun|]. split; [by rewrite Hrun|]. split.
  - intros st' k result Hk. rewrite (step_settle_authenticate _ _ _ _ _ Hk).
    unfold resume_authenticate. by rewrite Hv.
  - intros data' now' decoded Htype' Hv' st2. subst st2. rewrite Hrun.
    cbn [fst]. rewrite (authenticate_round _ _ _ _ _ _ Hws Htype').
    rewrite (resume_authenticate_success _ _ _ _ Hv'). cbn. split.
    + unfold ws_userId. cbn. by rewrite list_lookup_alter_eq, Hws.
    + apply JsMapFacts.get_set_eq.
Qed.

End Authentication.

(** A fresh socket sends an expired token and then a good one. *)
Lemma failed_authentication_changes_nothing_witness :
  let attempt := [Incoming 0 (Some Demo.bad_authenticate) 0%Z; Settle 0 None] in
  run (C := Demo.collaborators) Demo.one_socket attempt
  = (Demo.one_socket,
     reply (C := Demo.collaborators) 0 authentication_error_frame)
  /\ ws_userId
       (fst (run (C := Demo.collaborators) Demo.one_socket
               (attempt ++ [Incoming 0 (Some (Demo.authenticate Demo.alice)) 1%Z;
                            Settle 0 None]))) 0
     = Some Demo.alice.
Proof.
  intros attempt.
  destruct (failed_authentication_changes_nothing (C := Demo.collaborators)
              Demo.one_socket 0 {| userId := None; readyState := OPEN |}
              Demo.bad_authenticate 0%Z eq_refl eq_refl eq_refl)
    as (Hrun & _ & _ & Hretry).
  split; [exact Hrun|].
  exact (proj1 (Hretry (Demo.authenticate Demo.alice) 1%Z
                  {| jwt_userId := Demo.alice; jwt_username := "user";
                     jwt_role := "user" |} eq_refl eq_refl)).
Defined.

(** ** Direct messages *)

Section DirectMessages.

Context `{C : Collaborators}.

Lemma on_message_send_message st ws S data now sender receiver :
  ws_userId st ws = Some S ->
  S <> EmptyString ->
  is_string (get data "type") "send_message" = true ->
  ObjectId_new (Some (JStr S)) = Some sender ->
  ObjectId_new (get data "receiverId") = Some receiver ->
  on_message st ws (Some data) now
  = (suspend st (AwaitCreateMessage ws data),
     [CreateMessage
        {| senderId := sender;
           receiverId := receiver;
           conversationId := get data "conversationId";
           content := get data "content";
           type := or_else (get data "messageType") (JStr "text");
           createdAt := now |}]).
Proof.
  intros Hu Hne Htype Hs Hr. unfold on_message.
  rewrite (is_string_eq _ _ "authenticate" Htype) by done.
  rewrite Htype, Hu. cbn. apply String.eqb_neq in Hne. rewrite Hne. cbn.
  rewrite Hs, Hr. destruct data; try done.
Qed.

(** C4: a [send_message] frame from a socket whose [userId] is S, with
    identities that the driver accepts, makes one call to the store and
    sends nothing until the store answers.  When the store answers with
    the stored message, the sockets that are sent anything are: the socket
    registered for the recipient at that moment, if there is one, which is
    sent one [new_message] frame carrying the stored message; and then, in
    every case, the sending socket, which is sent one [message_sent] frame
    carrying the same stored message.  When the store fails, the sending
    socket is sent one [error] frame and nothing else is sent.  Neither
    answer makes a further call to the store or changes the registry. *)
Theorem send_message_delivery st ws w S data now sender receiver :
  sockets st !! ws = Some w ->
  userId w = Some S ->
  S <> EmptyString ->
  is_string (get data "type") "send_message" = true ->
  ObjectId_new (Some (JStr S)) = Some sender ->
  ObjectId_new (get data "receiverId") = Some receiver ->
  let accepted := step st (Incoming ws (Some data) now) in
  (persisted (snd accepted)
   = [{| senderId := sender;
         receiverId := receiver;
         conversationId := get data "conversationId";
         content := get data "content";
         type := or_else (get data "messageType") (JStr "text");
         createdAt := now |}]
   /\ sends (snd accepted) = []
   /\ pending (fst accepted) = pending st ++ [AwaitCreateMessage ws data]
   /\ connectedClients (fst accepted) = connectedClients st)
  /\ forall st' k,
       pending st' !! k = Some (AwaitCreateMessage ws data) ->
       (forall message,
          let answered := step st' (Settle k (Some message)) in
          sends (snd answered)
          = match JsMap.get_value (get data "receiverId") (connectedClients st') with
            | Some receiverWs =>
                [(receiverWs, JSON_stringify (new_message_frame message));
                 (ws, JSON_stringify (message_sent_frame message))]
            | None => [(ws, JSON_stringify (message_sent_frame message))]
            end
          /\ persisted (snd answered) = []
          /\ connectedClients (fst answered) = connectedClients st')
       /\ (let failed := step st' (Settle k None) in
           sends (snd failed) = [(ws, JSON_stringify error_frame)]
           /\ persisted (snd failed) = []
           /\ connectedClients (fst failed) = connectedClients st').
Proof.
  intros Hws Hu Hne Htype Hs Hr accepted. split.
  - subst accepted. cbn [step]. rewrite Hws.
    rewrite (on_message_send_message st ws S data now sender receiver);
      try done.
    by rewrite (ws_userId_lookup _ _ _ Hws).
  - intros st' k Hk. split.
    + intros message answered. subst answered.
      rewrite (step_settle_send_message _ _ _ _ _ Hk).
      unfold resume_send_message. cbn.
      by destruct (JsMap.get_value (get data "receiverId") (connectedClients st')).
    + intros failed. subst failed.
      by rewrite (step_settle_send_message _ _ _ _ _ Hk).
Qed.

End DirectMessages.

(** Alice, on socket 0, writes to bob, on socket 1: socket 1 is sent the
    [new_message] frame, then socket 0 the [message_sent] frame. *)
Lemma send_message_delivery_witness :
  let st := fst (step (C := Demo.collaborators) Demo.alice_and_bob_state
                   (Incoming 0 (Some (Demo.send_message Demo.bob "hi")) 7%Z)) in
  sends (snd (step (C := Demo.collaborators) st (Settle 0 (Some (Demo.stored "hi")))))
  = [(1, Demo.stringify (new_message_frame (Demo.stored "hi")));
     (0, Demo.stringify (message_sent_frame (Demo.stored "hi")))].
Proof.
  intros st.
  destruct (send_message_delivery (C := Demo.collaborators)
              Demo.alice_and_bob_state 0
              {| userId := Some Demo.alice; readyState := OPEN |} Demo.alice
              (Demo.send_message Demo.bob "hi") 7%Z Demo.alice Demo.bob
              eq_refl eq_refl ltac:(discriminate) eq_refl eq_refl eq_refl)
    as [_ Hlater].
  exact (proj1 (proj1 (Hlater st 0 eq_refl) (Demo.stored "hi"))).
Defined.

Section MessageContent.

Context `{C : Collaborators}.

(** C5, at the code: the handler does not look at [content].  A
    [send_message] frame whose content is empty or white space only, sent
    by an authenticated socket with identities the driver accepts, is not
    rejected: the store is called, once, with that content. *)
Theorem blank_content_reaches_store st ws w S data now sender receiver text :
  sockets st !! ws = Some w ->
  userId w = Some S ->
  S <> EmptyString ->
  is_string (get data "type") "send_message" = true ->
  ObjectId_new (Some (JStr S)) = Some sender ->
  ObjectId_new (get data "receiverId") = Some receiver ->
  get data "content" = Some (JStr text) ->
  blank_after_trim text = true ->
  exists md,
    persisted (snd (step st (Incoming ws (Some data) now))) = [md]
    /\ content md = Some (JStr text)
    /\ sends (snd (step st (Incoming ws (Some data) now))) = [].
Proof.
  intros Hws Hu Hne Htype Hs Hr Hcontent _. cbn [step]. rewrite Hws.
  rewrite (on_message_send_message st ws S data now sender receiver);
    try done; [|by rewrite (ws_userId_lookup _ _ _ Hws)].
  eexists. split; [reflexivity|]. split; [exact Hcontent|reflexivity].
Qed.

End MessageContent.

(** Alice sends bob a message made of three spaces. *)
Lemma blank_content_reaches_store_witness :
  exists md,
    persisted
      (snd (step (C := Demo.collaborators) Demo.alice_and_bob_state
              (Incoming 0 (Some (Demo.send_message Demo.bob "   ")) 7%Z)))
    = [md]
    /\ content md = Some (JStr "   ")
    /\ sends
         (snd (step (C := Demo.collaborators) Demo.alice_and_bob_state
                 (Incoming 0 (Some (Demo.send_message Demo.bob "   ")) 7%Z)))
       = [].
Proof.
  apply (blank_content_reaches_store (C := Demo.collaborators)
           Demo.alice_and_bob_state 0
           {| userId := Some Demo.alice; readyState := OPEN |} Demo.alice
           (Demo.send_message Demo.bob "   ") 7%Z Demo.alice Demo.bob "   ");
    try reflexivity.
  discriminate.
Defined.

(** ** Broadcasts *)

Section Broadcasts.

Context `{C : Collaborators}.

Lemma sends_broadcast_loop st payload (m : JsMap.t) :
  sends (flat_map (fun entry : string * nat =>
                     match ws_readyState st (snd entry) with
                     | Some r =>
                         if ReadyState_eqb r OPEN
                         then [Send (snd entry) payload] else []
                     | None => []
                     end) m)
  = map (fun ws => (ws, payload)) (List.filter (is_open st) (map snd m)).
Proof.
  induction m as [|[k ws] m IH]; [done|].
  cbn [flat_map map List.filter snd]. unfold is_open at 1.
  destruct (ws_readyState st ws) as [r|]; [|exact IH].
  destruct (ReadyState_eqb r OPEN); cbn; [by rewrite IH|exact IH].
Qed.

Lemma quiet_broadcast_loop st payload (m : JsMap.t) :
  let evs := flat_map (fun entry : string * nat =>
                     match ws_readyState st (snd entry) with
                     | Some r =>
                         if ReadyState_eqb r OPEN
                         then [Send (snd entry) payload] else []
                     | None => []
                     end) m in
  serializations evs = 0 /\ persisted evs = [].
Proof.
  induction m as [|[k ws] m [IH1 IH2]]; [done|].
  cbn [flat_map snd]. destruct (ws_readyState st ws) as [r|]; [|done].
  by destruct (ReadyState_eqb r OPEN).
Qed.

(** C6: a broadcast calls [JSON.stringify] once, on [{type, data}], and
    sends that one string to the socket of every registry entry whose
    [readyState] is OPEN, in registry order; the other entries are passed
    over and nothing else happens: no further send, no call to the store,
    no change of state. *)
Theorem broadcast_one_payload_for_all st type data :
  let payload := JSON_stringify (broadcast_frame type data) in
  let evs := snd (step st (Broadcast type data)) in
  fst (step st (Broadcast type data)) = st
  /\ serializations evs = 1
  /\ persisted evs = []
  /\ sends evs = map (fun ws => (ws, payload)) (open_clients st)
  /\ length (sends evs) = length (open_clients st)
  /\ (forall ws p, In (ws, p) (sends evs) ->
        p = payload /\ ws_readyState st ws = Some OPEN
        /\ exists u, In (u, ws) (connectedClients st)).
Proof.
  intros payload evs.
  assert (Hsends : sends evs = map (fun ws => (ws, payload)) (open_clients st)).
  { subst evs. cbn [step snd]. unfold broadcastToClients. cbn [sends].
    apply sends_broadcast_loop. }
  destruct (quiet_broadcast_loop st payload (connectedClients st)) as [Hser Hper].
  repeat split; try done.
  - exact (f_equal S Hser).
  - by rewrite Hsends, length_map.
  - rewrite Hsends in H. apply in_map_iff in H as (ws' & [= -> ->] & _). done.
  - rewrite Hsends in H. apply in_map_iff in H as (ws' & [= -> ->] & Hin).
    apply filter_In in Hin as [_ Hopen]. unfold is_open in Hopen.
    destruct (ws_readyState st ws) as [[]|]; done.
  - rewrite Hsends in H. apply in_map_iff in H as (ws' & [= -> ->] & Hin).
    apply filter_In in Hin as [Hin _].
    apply in_map_iff in Hin as ([u ws'] & Heq & Hin). simpl in Heq. subst.
    by exists u.
Qed.

End Broadcasts.

(** * Further properties of the event loop *)

Section SoundStates.

Context `{C : Collaborators}.

Lemma get_In k v (m : JsMap.t) : JsMap.get k m = Some v -> In (k, v) m.
Proof.
  induction m as [|[k' v'] m IH]; simpl; [done|].
  destruct (String.eqb_spec k k') as [->|Hne].
  - intros [= ->]. by left.
  - intros H. right. by apply IH.
Qed.

Lemma In_set e k v (m : JsMap.t) :
  In e (JsMap.set k v m) -> e = (k, v) \/ In e m.
Proof.
  induction m as [|[k' v'] m IH]; simpl.
  - intros [<-|[]]. by left.
  - destruct (String.eqb_spec k k') as [->|Hne]; simpl.
    + intros [<-|H]; [by left|right; by right].
    + intros [<-|H]; [right; by left|].
      destruct (IH H) as [->|H']; [by left|right; by right].
Qed.

Lemma In_delete e k (m : JsMap.t) : In e (JsMap.delete k m) -> In e m.
Proof.
  induction m as [|[k' v'] m IH]; simpl; [done|].
  destruct (String.eqb_spec k k'); simpl; [by right|].
  intros [<-|H]; [by left|right; by apply IH].
Qed.

Lemma on_close_sockets st ws :
  sockets (on_close st ws) = alter (set_readyState CLOSED) ws (sockets st).
Proof. unfold on_close. by repeat case_match. Qed.

Lemma on_close_registry st ws e :
  In e (connectedClients (on_close st ws)) -> In e (connectedClients st).
Proof.
  unfold on_close. repeat case_match; simpl; try done. apply In_delete.
Qed.

(** A step keeps every accepted socket, and keeps a [userId] on the ones
    that have one. *)
Lemma step_socket_kept st i ws w :
  sockets st !! ws = Some w ->
  exists w', sockets (fst (step st i)) !! ws = Some w'
             /\ (forall u, userId w = Some u -> exists u', userId w' = Some u').
Proof.
  intros Hws.
  assert (Hro : forall r ws',
            exists w', alter (set_readyState r) ws' (sockets st) !! ws = Some w'
                       /\ (forall u, userId w = Some u -> exists u', userId w' = Some u')).
  { intros r ws'. destruct (decide (ws' = ws)) as [->|Hne].
    - rewrite list_lookup_alter_eq, Hws. simpl. eauto.
    - rewrite list_lookup_alter_ne by done. eauto. }
  destruct i as [|ws' parsed now|k result|ws'|ws'|ty d]; cbn [step fst].
  - exists w. split; [|eauto]. cbn. by apply lookup_app_l_Some.
  - destruct (sockets st !! ws'); cbn [fst]; [|eauto].
    rewrite on_message_sockets. eauto.
  - destruct (pending st !! k) as [[ws' data|ws' data]|]; cbn [fst]; [| |eauto].
    + unfold resume_authenticate.
      destruct (verifyAccessToken (get data "token")) as [decoded|];
        cbn [fst sockets with_sockets with_connectedClients with_pending];
        [|eauto].
      destruct (decide (ws' = ws)) as [->|Hne].
      * rewrite list_lookup_alter_eq, Hws. simpl. eauto.
      * rewrite list_lookup_alter_ne by done. eauto.
    + unfold resume_send_message. destruct result; cbn; eauto.
  - apply Hro.
  - rewrite on_close_sockets. apply Hro.
  - eauto.
Qed.

Lemma step_registry_origin st i u ws :
  In (u, ws) (connectedClients (fst (step st i))) ->
  In (u, ws) (connectedClients st)
  \/ exists k result data decoded,
       i = Settle k result
       /\ pending st !! k = Some (AwaitImport ws data)
       /\ verifyAccessToken (get data "token") = Some decoded
       /\ u = jwt_userId decoded.
Proof.
  destruct i as [|ws' parsed now|k result|ws'|ws'|ty d]; cbn [step fst];
    try (by left).
  - destruct (sockets st !! ws'); cbn [fst]; [|by left].
    rewrite on_message_registry. by left.
  - destruct (pending st !! k) as [[ws' data|ws' data]|] eqn:Hk; cbn [fst];
      [| |by left].
    + unfold resume_authenticate.
      destruct (verifyAccessToken (get data "token")) as [decoded|] eqn:Hv;
        cbn; [|by left].
      intros H. apply In_set in H as [[= -> ->]|H]; [|by left].
      right. by exists k, result, data, decoded.
    + unfold resume_send_message. destruct result; cbn; by left.
  - intros H. left. by apply on_close_registry in H.
Qed.

Lemma step_pending_origin st i t :
  t ∈ pending (fst (step st i)) ->
  t ∈ pending st
  \/ exists ws data now w,
       i = Incoming ws (Some data) now
       /\ sockets st !! ws = Some w
       /\ (t = AwaitImport ws data
           \/ t = AwaitCreateMessage ws data
              /\ truthy_userId (userId w) = true).
Proof.
  destruct i as [|ws' parsed now|k result|ws'|ws'|ty d]; cbn [step fst];
    try (by left).
  - destruct (sockets st !! ws') as [w|] eqn:Hws; cbn [fst]; [|by left].
    unfold on_message.
    destruct parsed as [data|]; [|by left].
    assert (Hu : ws_userId st ws' = userId w) by (unfold ws_userId; by rewrite Hws).
    destruct data; try (by left);
      repeat case_match; cbn; try (by left);
      rewrite elem_of_app, list_elem_of_singleton;
      (intros [Hold| ->]; [by left|right]);
      eexists _, _, _, w; (split; [reflexivity|]); (split; [done|]);
      try (by left); right; (split; [done|]);
      rewrite <- Hu;
      match goal with
      | H : _ && _ = true |- _ => by apply andb_prop in H as [_ ?]
      end.
  - destruct (pending st !! k) as [[ws' data|ws' data]|] eqn:Hk; cbn [fst];
      [| |by left].
    + unfold resume_authenticate. case_match; cbn; intros Hin; left;
        by apply list_elem_of_delete_inv in Hin.
    + unfold resume_send_message. case_match; cbn; intros Hin; left;
        by apply list_elem_of_delete_inv in Hin.
  - unfold on_close. repeat case_match; cbn; by left.
Qed.

Lemma step_sound st i : sound st -> sound (fst (step st i)).
Proof.
  intros [Hreg Hpend]. split.
  - intros u ws Hin. apply step_registry_origin in Hin as [Hin|Hnew].
    + destruct (Hreg u ws Hin) as (w & u' & Hw & Hu).
      destruct (step_socket_kept st i ws w Hw) as (w' & Hw' & Hkeep).
      destruct (Hkeep u' Hu) as [u'' Hu'']. by exists w', u''.
    + destruct Hnew as (k & result & data & decoded & -> & Hk & Hv & ->).
      destruct (Hpend k _ Hk) as (w & Hw & _). cbn in Hw.
      cbn [step fst]. rewrite Hk. unfold resume_authenticate. rewrite Hv. cbn.
      rewrite list_lookup_alter_eq, Hw. cbn. eauto.
  - intros k t Hk.
    assert (Hin : t ∈ pending (fst (step st i))).
    { apply list_elem_of_lookup. by exists k. }
    apply step_pending_origin in Hin as [Hin|Hnew].
    + apply list_elem_of_lookup in Hin as [k' Hk'].
      destruct (Hpend k' t Hk') as (w & Hw & Ht).
      destruct (step_socket_kept st i _ w Hw) as (w' & Hw' & Hkeep).
      exists w'. split; [done|]. destruct t; [done|].
      destruct Ht as [u' Hu']. by apply (Hkeep u').
    + destruct Hnew as (ws & data & now & w & -> & Hw & Ht).
      destruct (step_socket_kept st (Incoming ws (Some data) now) ws w Hw)
        as (w' & Hw' & Hkeep).
      destruct Ht as [->|[-> Htruthy]]; cbn [task_socket]; exists w';
        (split; [done|]); [done|].
      destruct (userId w) as [u|] eqn:Hu; [|done]. by apply (Hkeep u).
Qed.

Lemma run_sound ins : forall st, sound st -> sound (fst (run st ins)).
Proof.
  induction ins as [|i ins IH]; intros st Hs; simpl; [done|].
  pose proof (step_sound st i Hs) as Hs1.
  destruct (step st i) as [st1 evs1]. specialize (IH st1 Hs1).
  by destruct (run st1 ins).
Qed.

Lemma reachable_sound st : reachable st -> sound st.
Proof.
  intros [ins <-]. apply run_sound. split.
  - intros u ws [].
  - intros k t Hk. by destruct k.
Qed.

End SoundStates.

Section EventLoopFacts.

Context `{C : Collaborators}.

Lemma sends_on_message st ws parsed now ws' p :
  In (ws', p) (sends (snd (on_message st ws parsed now))) -> ws' = ws.
Proof.
  unfold on_message. repeat case_match; cbn; try done; by intros [[= ->]|[]].
Qed.

Lemma sends_resume_authenticate st ws data ws' p :
  In (ws', p) (sends (snd (resume_authenticate st ws data))) -> ws' = ws.
Proof.
  unfold resume_authenticate. case_match; cbn; by intros [[= ->]|[]].
Qed.

Lemma sends_resume_send_message st ws data result ws' p :
  In (ws', p) (sends (snd (resume_send_message st ws data result))) ->
  ws' = ws \/ exists u, In (u, ws') (connectedClients st).
Proof.
  unfold resume_send_message. destruct result as [message|]; cbn;
    [|intros [[= ->]|[]]; by left].
  destruct (JsMap.get_value (get data "receiverId") (connectedClients st))
    as [receiverWs|] eqn:Hget; cbn.
  - intros [[= -> _]|[[= ->]|[]]]; [right|by left].
    unfold JsMap.get_value in Hget. repeat case_match; try done.
    eexists. by apply get_In.
  - intros [[= ->]|[]]. by left.
Qed.

Lemma sends_broadcast st type data ws p :
  In (ws, p) (sends (broadcastToClients st type data)) ->
  exists u, In (u, ws) (connectedClients st).
Proof.
  unfold broadcastToClients. cbn [sends]. rewrite sends_broadcast_loop.
  intros H. apply in_map_iff in H as (ws' & [= -> _] & Hin).
  apply filter_In in Hin as [Hin _].
  apply in_map_iff in Hin as ([u ws'] & Heq & Hin). simpl in Heq. subst.
  by exists u.
Qed.

(** X1: in every state that the event loop can reach, the socket that an
    identity resolves to has been accepted by the server and carries a
    [userId]: the registry never names a socket that has not
    authenticated. *)
Theorem registry_names_authenticated_sockets st u ws :
  reachable st ->
  JsMap.get u (connectedClients st) = Some ws ->
  exists w u', sockets st !! ws = Some w /\ userId w = Some u'.
Proof.
  intros Hreach Hget. destruct (reachable_sound st Hreach) as [Hreg _].
  apply (Hreg u). by apply get_In.
Qed.

(** X2: whatever the event loop does, a frame that is sent to a socket
    without [userId] is a reply to a frame of that socket: it is sent while
    a frame received on that socket is handled, or when the handler of an
    [authenticate] frame of that socket resumes.  Such a socket is sent no
    broadcast and no message of another user. *)
Theorem unauthenticated_socket_only_gets_replies st i ws payload :
  reachable st ->
  ws_userId st ws = None ->
  In (ws, payload) (sends (snd (step st i))) ->
  (exists parsed now, i = Incoming ws parsed now)
  \/ (exists k result data,
        i = Settle k result /\ pending st !! k = Some (AwaitImport ws data)).
Proof.
  intros Hreach Hnone Hin. destruct (reachable_sound st Hreach) as [Hreg Hpend].
  assert (Hnot : forall u, ~ In (u, ws) (connectedClients st)).
  { intros u Hu. destruct (Hreg u ws Hu) as (w & u' & Hw & Hu').
    unfold ws_userId in Hnone. rewrite Hw in Hnone. congruence. }
  destruct i as [|ws' parsed now|k result|ws'|ws'|ty d]; cbn [step snd] in Hin;
    try done.
  - destruct (sockets st !! ws'); [|done].
    apply sends_on_message in Hin as ->. left. eauto.
  - destruct (pending st !! k) as [[ws' data|ws' data]|] eqn:Hk; [| |done].
    + apply sends_resume_authenticate in Hin as ->. right. eauto.
    + exfalso. apply sends_resume_send_message in Hin as [->|[u Hu]].
      * destruct (Hpend k _ Hk) as (w & Hw & u' & Hu'). cbn in Hw.
        unfold ws_userId in Hnone. rewrite Hw in Hnone. congruence.
      * by apply (Hnot u).
  - exfalso. apply sends_broadcast in Hin as [u Hu]. by apply (Hnot u).
Qed.

Lemma step_userId_kept st i ws u :
  ws_userId st ws = Some u ->
  exists u', ws_userId (fst (step st i)) ws = Some u'.
Proof.
  unfold ws_userId. destruct (sockets st !! ws) as [w|] eqn:Hw; [|done].
  intros Hu. destruct (step_socket_kept st i ws w Hw) as (w' & -> & Hkeep).
  by apply (Hkeep u).
Qed.

(** X3: there is no way back from authenticated: once a socket carries a
    [userId], it carries one after every further sequence of events, its
    own close included. *)
Theorem authenticated_stays_authenticated ins : forall st ws u,
  ws_userId st ws = Some u ->
  exists u', ws_userId (fst (run st ins)) ws = Some u'.
Proof.
  induction ins as [|i ins IH]; intros st ws u Hu; simpl; [eauto|].
  destruct (step_userId_kept st i ws u Hu) as [u1 Hu1].
  destruct (step st i) as [st1 evs1]. cbn in Hu1.
  destruct (IH st1 ws u1 Hu1) as [u2 Hu2].
  destruct (run st1 ins). eauto.
Qed.

Lemma sends_app evs1 evs2 : sends (evs1 ++ evs2) = sends evs1 ++ sends evs2.
Proof.
  induction evs1 as [|[] evs1 IH]; cbn; [done|done| |done]. by rewrite IH.
Qed.

Lemma persisted_app evs1 evs2 :
  persisted (evs1 ++ evs2) = persisted evs1 ++ persisted evs2.
Proof.
  induction evs1 as [|[] evs1 IH]; cbn; [done|done|done|]. by rewrite IH.
Qed.

(** X4: the sender of a stored message cannot be chosen by the client.
    Whenever the event loop calls [createMessage], it is handling a frame
    of a socket that carries a non-empty [userId], and [senderId] is the
    [ObjectId] of that [userId], whatever the frame says; the recipient,
    the content and the date are the frame's [receiverId] and [content] and
    the time of arrival. *)
Theorem stored_sender_is_socket_identity st i md :
  In md (persisted (snd (step st i))) ->
  exists ws data now u,
    i = Incoming ws (Some data) now
    /\ ws_userId st ws = Some u
    /\ u <> EmptyString
    /\ ObjectId_new (Some (JStr u)) = Some (senderId md)
    /\ ObjectId_new (get data "receiverId") = Some (receiverId md)
    /\ content md = get data "content"
    /\ createdAt md = now
    /\ persisted (snd (step st i)) = [md].
Proof.
  destruct i as [|ws parsed now|k result|ws|ws|ty d]; cbn [step snd]; try done.
  - destruct (sockets st !! ws); [|done]. unfold on_message.
    destruct parsed as [data|]; [|done].
    destruct (ws_userId st ws) as [u|] eqn:Hu.
    + destruct data; try done;
        repeat case_match; cbn; try done;
        intros [<-|[]]; eexists ws, _, now, u;
        (split; [reflexivity|]); (split; [done|]);
        repeat split; try done;
        match goal with
        | H : _ && _ = true |- _ =>
            apply andb_prop in H as [_ H]; cbn in H;
            apply negb_true_iff, String.eqb_neq in H; done
        end.
    + destruct data; try done; repeat case_match; cbn; try done;
        match goal with
        | H : _ && _ = true |- _ => by apply andb_prop in H as [_ ?]
        end.
  - destruct (pending st !! k) as [[ws data|ws data]|]; [| |done].
    + unfold resume_authenticate. by case_match.
    + unfold resume_send_message. destruct result; cbn; [|done].
      by destruct (JsMap.get_value _ _).
  - unfold broadcastToClients. cbn [persisted].
    by destruct (quiet_broadcast_loop st
                   (JSON_stringify (broadcast_frame ty d)) (connectedClients st))
      as [_ ->].
Qed.

(** X5: while a frame is received, before any [await], the handler sends
    something in three cases only: the frame is not JSON, it is the JSON
    value [null], or it is a [send_message] frame on a socket with a
    non-empty [userId] and the driver rejects that [userId] or the frame's
    [receiverId] as an [ObjectId].  What it sends then is the one [error]
    frame, to the sender, and the state is left as it was. *)
Theorem first_phase_error_replies st ws w parsed now :
  sockets st !! ws = Some w ->
  (sends (snd (step st (Incoming ws parsed now))) <> [] <->
     parsed = None \/ parsed = Some JNull
     \/ exists data,
          parsed = Some data
          /\ is_string (get data "type") "send_message" = true
          /\ truthy_userId (userId w) = true
          /\ (ObjectId_new (JStr <$> userId w) = None
              \/ ObjectId_new (get data "receiverId") = None))
  /\ (sends (snd (step st (Incoming ws parsed now))) <> [] ->
      step st (Incoming ws parsed now) = (st, reply ws error_frame)).
Proof.
  intros Hw. cbn [step]. rewrite Hw.
  assert (Hu : ws_userId st ws = userId w) by (unfold ws_userId; by rewrite Hw).
  destruct parsed as [data|]; [|split; [split; [by left|done]|done]].
  destruct (decide (is_string (get data "type") "authenticate" = true)) as [Ha|Ha].
  { assert (Hs : is_string (get data "type") "send_message" = false)
      by (by apply (is_string_eq _ _ _ Ha)).
    rewrite on_message_authenticate by done. cbn. split; [|done].
    split; [done|]. intros [?|[[= ->]|(d & [= <-] & Hsend & _)]]; try done.
    congruence. }
  apply not_true_is_false in Ha.
  unfold on_message. rewrite Ha, Hu.
  destruct (is_string (get data "type") "send_message") eqn:Hs; cbn [andb].
  - destruct (truthy_userId (userId w)) eqn:Ht.
    + destruct (ObjectId_new (JStr <$> userId w)) as [sender|] eqn:Hsender;
        [destruct (ObjectId_new (get data "receiverId")) as [receiver|] eqn:Hreceiver|].
      * destruct data; try done. cbn. split; [|intros Hne; by destruct Hne].
        split; [intros Hne; by destruct Hne|].
        intros [?|[?|(d & [= <-] & _ & _ & [?|?])]]; congruence.
      * destruct data; try done. cbn. split; [|done]. split; [|done].
        intros _. right. right. eexists. eauto.
      * destruct data; try done. cbn. split; [|done]. split; [|done].
        intros _. right. right. eexists. eauto.
    + destruct data; try done. cbn. split; [|intros Hne; by destruct Hne].
      split; [intros Hne; by destruct Hne|].
      intros [?|[?|(d & [= <-] & _ & ? & _)]]; congruence.
  - destruct data; try done; cbn;
      [split; [|done]; split; [intros _; right; by left|done]|..];
      (split; [|intros Hne; by destruct Hne]);
      (split; [intros Hne; by destruct Hne|]);
      intros [?|[?|(d & [= <-] & ? & _)]]; congruence.
Qed.

Lemma hook_frame_unhandled data :
  hook_frame data = true ->
  data <> JNull
  /\ is_string (get data "type") "authenticate" = false
  /\ is_string (get data "type") "send_message" = false.
Proof.
  unfold hook_frame. intros H. split; [by intros ->|].
  apply orb_prop in H as [H|H]; [apply orb_prop in H as [H|H]|];
    split; by apply (is_string_eq _ _ _ H).
Qed.

Lemma hook_step st i :
  hook_input i = true ->
  connectedClients st = [] ->
  pending st = [] ->
  connectedClients (fst (step st i)) = []
  /\ pending (fst (step st i)) = []
  /\ sends (snd (step st i)) = []
  /\ persisted (snd (step st i)) = [].
Proof.
  intros Hi Hreg Hpend.
  destruct i as [|ws parsed now|k result|ws|ws|ty d].
  - done.
  - destruct parsed as [data|]; [|done]. cbn in Hi.
    destruct (hook_frame_unhandled data Hi) as (Hnull & Ha & Hs).
    rewrite step_incoming_falls_through; try done. by rewrite Hs.
  - cbn [step]. rewrite Hpend. by destruct k.
  - done.
  - cbn [step]. unfold on_close. repeat case_match; cbn; rewrite ?Hreg; done.
  - cbn [step]. unfold broadcastToClients. rewrite Hreg. done.
Qed.

(** X6: the frames that the client's [useWebSocket] hook sends ([auth] on
    open, [typing_start], [typing_stop]) are none that the server acts on.
    When every frame that arrives is one of these, however sockets connect
    and close and whatever is broadcast, the registry stays empty, nothing
    is stored, and no socket is ever sent anything: such clients receive no
    [authenticated] frame, no message and no broadcast. *)
Theorem hook_clients_are_never_registered ins :
  forallb hook_input ins = true ->
  connectedClients (fst (run initial ins)) = []
  /\ sends (snd (run initial ins)) = []
  /\ persisted (snd (run initial ins)) = [].
Proof.
  assert (Hgen : forall st,
            connectedClients st = [] -> pending st = [] ->
            forallb hook_input ins = true ->
            connectedClients (fst (run st ins)) = []
            /\ sends (snd (run st ins)) = []
            /\ persisted (snd (run st ins)) = []).
  { induction ins as [|i ins IH]; intros st Hreg Hpend Hall; [done|].
    cbn in Hall. apply andb_prop in Hall as [Hi Hall].
    destruct (hook_step st i Hi Hreg Hpend) as (Hreg1 & Hpend1 & Hs1 & Hp1).
    cbn [run]. destruct (step st i) as [st1 evs1]. cbn in *.
    destruct (IH st1 Hreg1 Hpend1 Hall) as (Hreg2 & Hs2 & Hp2).
    destruct (run st1 ins) as [st2 evs2]. cbn in *.
    split; [done|]. rewrite sends_app, persisted_app, Hs1, Hs2, Hp1, Hp2. done. }
  by apply Hgen.
Qed.

End EventLoopFacts.

Lemma registry_names_authenticated_sockets_witness :
  exists w u',
    sockets Demo.alice_and_bob_state !! 1 = Some w /\ userId w = Some u'.
Proof.
  apply (registry_names_authenticated_sockets (C := Demo.collaborators)
           Demo.alice_and_bob_state Demo.bob 1 (demo_reachable _)).
  reflexivity.
Defined.

(** A fresh socket sends a frame that is not JSON: the error frame that it
    is sent is a reply to its own frame. *)
Lemma unauthenticated_socket_only_gets_replies_witness :
  (exists parsed now, Incoming 0 None 0%Z = Incoming 0 parsed now)
  \/ (exists k result data,
        Incoming 0 None 0%Z = Settle k result
        /\ pending Demo.one_socket !! k = Some (AwaitImport 0 data)).
Proof.
  apply (unauthenticated_socket_only_gets_replies (C := Demo.collaborators)
           Demo.one_socket (Incoming 0 None 0%Z) 0
           (Demo.stringify error_frame) (demo_reachable _) eq_refl).
  left. reflexivity.
Defined.

Lemma authenticated_stays_authenticated_witness :
  exists u',
    ws_userId
      (fst (run (C := Demo.collaborators) Demo.alice_and_bob_state
              [Closing 0; Close 0; Incoming 0 (Some Demo.bad_authenticate) 0%Z;
               Settle 0 None])) 0
    = Some u'.
Proof.
  apply (authenticated_stays_authenticated (C := Demo.collaborators) _
           Demo.alice_and_bob_state 0 Demo.alice).
  reflexivity.
Defined.

Lemma stored_sender_is_socket_identity_witness :
  exists ws data now u,
    Incoming 0 (Some (Demo.send_message Demo.bob "hi")) 7%Z
    = Incoming ws (Some data) now
    /\ ws_userId Demo.alice_and_bob_state ws = Some u
    /\ u <> EmptyString
    /\ Demo.objectid (Some (JStr u)) = Some (senderId Demo2.hi_to_bob)
    /\ Demo.objectid (get data "receiverId") = Some (receiverId Demo2.hi_to_bob)
    /\ content Demo2.hi_to_bob = get data "content"
    /\ createdAt Demo2.hi_to_bob = now
    /\ persisted
         (snd (step (C := Demo.collaborators) Demo.alice_and_bob_state
                 (Incoming 0 (Some (Demo.send_message Demo.bob "hi")) 7%Z)))
       = [Demo2.hi_to_bob].
Proof.
  apply (stored_sender_is_socket_identity (C := Demo.collaborators)
           Demo.alice_and_bob_state
           (Incoming 0 (Some (Demo.send_message Demo.bob "hi")) 7%Z)
           Demo2.hi_to_bob).
  left. reflexivity.
Defined.

(** Alice sends a message to a [receiverId] that is no [ObjectId]. *)
Lemma first_phase_error_replies_witness :
  step (C := Demo.collaborators) Demo.alice_and_bob_state
       (Incoming 0 (Some (Demo.send_message "bob" "hi")) 7%Z)
  = (Demo.alice_and_bob_state,
     reply (C := Demo.collaborators) 0 error_frame).
Proof.
  apply (first_phase_error_replies (C := Demo.collaborators)
           Demo.alice_and_bob_state 0
           {| userId := Some Demo.alice; readyState := OPEN |}
           (Some (Demo.send_message "bob" "hi")) 7%Z eq_refl).
  discriminate.
Defined.

Lemma hook_clients_are_never_registered_witness :
  connectedClients (fst (run (C := Demo.collaborators) initial Demo2.hook_session))
  = []
  /\ sends (snd (run (C := Demo.collaborators) initial Demo2.hook_session)) = []
  /\ persisted (snd (run (C := Demo.collaborators) initial Demo2.hook_session))
     = [].
Proof.
  apply (hook_clients_are_never_registered (C := Demo.collaborators)
           Demo2.hook_session).
  reflexivity.
Defined.

(** * The HTTP routes *)

Section HttpFacts.

Context `{C : Collaborators}.

Variable trim : string -> string.

Lemma broadcast_shape st type data :
  serializations (broadcastToClients st type data) = 1
  /\ sends (broadcastToClients st type data)
     = map (fun ws => (ws, JSON_stringify (broadcast_frame type data)))
           (open_clients st)
  /\ persisted (broadcastToClients st type data) = [].
Proof.
  destruct (quiet_broadcast_loop st (JSON_stringify (broadcast_frame type data))
              (connectedClients st)) as [Hser Hper].
  unfold broadcastToClients. cbn [serializations sends persisted].
  split; [by rewrite Hser|]. split; [apply sends_broadcast_loop|done].
Qed.

(** X7: clients are told of a change exactly when the request that made it
    is answered with success.  For each of the seven routes that broadcast
    (new post, deleted post, new comment, like, unlike, follow, unfollow):
    if the response status is 2xx, the route has made one broadcast, of its
    own event type, serialized once and sent to the socket of every open
    registry entry; with any other status it has sent nothing to any
    socket. *)
Theorem broadcast_only_with_success st r :
  if is_success (status (response (handle trim st r))) then
    exists data,
      pushed (handle trim st r) = broadcastToClients st (event_type r) data
      /\ serializations (pushed (handle trim st r)) = 1
      /\ sends (pushed (handle trim st r))
         = map (fun ws => (ws, JSON_stringify (broadcast_frame (event_type r) data)))
               (open_clients st)
      /\ persisted (pushed (handle trim st r)) = []
  else pushed (handle trim st r) = [].
Proof.
  destruct r; cbn [handle event_type].
  - unfold create_post. repeat case_match; subst; cbn; try done.
    eexists; split; [reflexivity|]; apply broadcast_shape.
  - unfold delete_post. repeat case_match; subst; cbn; try done.
    eexists; split; [reflexivity|]; apply broadcast_shape.
  - unfold create_comment. repeat case_match; subst; cbn; try done.
    eexists; split; [reflexivity|]; apply broadcast_shape.
  - unfold like_post. repeat case_match; subst; cbn; try done.
    eexists; split; [reflexivity|]; apply broadcast_shape.
  - unfold unlike_post. repeat case_match; subst; cbn; try done.
    eexists; split; [reflexivity|]; apply broadcast_shape.
  - unfold follow_user, follow_failure. repeat case_match; subst; cbn; try done.
    eexists; split; [reflexivity|]; apply broadcast_shape.
  - unfold unfollow_user. repeat case_match; subst; cbn; try done.
    eexists; split; [reflexivity|]; apply broadcast_shape.
Qed.

Lemma check_content_blank (content : option json) :
  truthy content = false
  \/ (exists s, content = Some (JStr s) /\ trim s = EmptyString) ->
  check_content trim content = Blank.
Proof.
  unfold check_content. intros [->|(s & -> & Hs)]; [done|].
  rewrite Hs. by case_match.
Qed.

(** X8: a post or a comment whose [content] is missing, falsy, or a string
    that [trim()] empties is answered 400 before the store is called; it is
    neither stored nor broadcast. *)
Theorem blank_content_is_rejected st postId userId b now now' created :
  b <> JNull ->
  truthy (get b "content") = false
  \/ (exists s, get b "content" = Some (JStr s) /\ trim s = EmptyString) ->
  create_post trim st userId (Some b) now now' created
  = respond 400 (message_body "Post content is required") []
  /\ create_comment trim st postId userId (Some b) now now' created
     = respond 400 (message_body "Comment content is required") [].
Proof.
  intros Hnull Hblank. apply check_content_blank in Hblank.
  unfold create_post, create_comment. rewrite Hblank. by destruct b.
Qed.

(** X9: a post or a comment whose [content] is truthy but not a string (a
    number, [true], an array, an object) is not answered 400: calling
    [content.trim()] throws, the request is answered 500 as if the server
    had failed, and the store is not called. *)
Theorem non_string_content_is_a_server_error st postId userId b v now now' created :
  get b "content" = Some v ->
  truthy (Some v) = true ->
  (forall s, v <> JStr s) ->
  create_post trim st userId (Some b) now now' created
  = respond 500 (message_body "Failed to create post") []
  /\ create_comment trim st postId userId (Some b) now now' created
     = respond 500 (message_body "Failed to create comment") [].
Proof.
  intros Hget Htruthy Hnot.
  assert (Hcheck : check_content trim (get b "content") = NotAString).
  { unfold check_content. rewrite Hget, Htruthy. destruct v; try done.
    by destruct (Hnot s). }
  unfold create_post, create_comment. rewrite Hcheck.
  destruct b; try done.
Qed.

(** X10: only its owner deletes a post.  The delete route calls
    [deletePost] only for the post of the request and only when the post
    that the store found belongs to the requester; for the post of somebody
    else it answers 403, deletes nothing and broadcasts nothing. *)
Theorem only_the_owner_deletes st postId userId found deleted :
  (forall p,
     In (DeletePost p) (calls (delete_post st postId userId found deleted)) ->
     p = postId /\ found = Resolved (PostOf userId))
  /\ (forall owner,
        found = Resolved (PostOf owner) ->
        owner <> userId ->
        delete_post st postId userId found deleted
        = respond 403 (message_body "Not authorized to delete this post")
                  [GetPostById postId]).
Proof.
  split.
  - intros p. unfold delete_post.
    destruct found as [[|owner]|]; cbn; try (intros [?|[]]; done).
    destruct (String.eqb_spec owner userId) as [->|Hne].
    + destruct deleted; cbn; intros [?|[[= ->]|[]]]; done.
    + cbn. intros [?|[]]. done.
  - intros owner -> Hne. unfold delete_post.
    apply String.eqb_neq in Hne. by rewrite Hne.
Qed.

(** X11: nobody follows themselves, and a follow can be stored without
    being announced.  A request to follow oneself is answered 400 and
    nothing is stored.  When the follow is stored and the notification that
    comes next fails, both calls to the store have been made, the request
    is answered with an error status, and no [new_follow] is broadcast. *)
Theorem follow_stored_but_not_announced st followingId followerId now now'
    follow message followed notified :
  followerId <> followingId ->
  follow_user st followerId followerId now now' followed notified
  = respond 400 (message_body "Cannot follow yourself") []
  /\ calls (follow_user st followingId followerId now now'
              (Resolved follow) (Rejected message))
     = [CreateFollow followerId followingId now;
        CreateNotification followingId followerId now']
  /\ pushed (follow_user st followingId followerId now now'
               (Resolved follow) (Rejected message)) = []
  /\ is_success (status (response
                   (follow_user st followingId followerId now now'
                      (Resolved follow) (Rejected message)))) = false.
Proof.
  intros Hne. unfold follow_user, follow_failure.
  rewrite String.eqb_refl. apply String.eqb_neq in Hne. rewrite Hne.
  repeat split; by case_match.
Qed.

Lemma includes_In l k : includes l k = true -> In k l.
Proof.
  unfold includes. intros H. apply existsb_exists in H as (x & Hx & Heq).
  by apply String.eqb_eq in Heq as ->.
Qed.

(** X12: the profile route updates allowed fields only.  Every update that
    it hands to the store is for the requester, and each of its fields is
    one of [firstName], [lastName], [bio], [website], [location],
    [profilePicture], with the value that the request body gives it; no
    other field of the body (a password, a role) reaches the store. *)
Theorem profile_update_keeps_allowed_fields userId updates updated reread u fs :
  In (UpdateUser u fs) (calls (update_profile userId updates updated reread)) ->
  u = userId
  /\ pushed (update_profile userId updates updated reread) = []
  /\ forall k v,
       In (k, v) fs ->
       In k allowedFields
       /\ exists fields, updates = Some (JObj fields) /\ In (k, v) fields.
Proof.
  unfold update_profile.
  destruct (filter_updates updates) as [filtered|] eqn:Hfilter; [|done].
  assert (Hok : forall k v, In (k, v) filtered ->
                  In k allowedFields
                  /\ exists fields, updates = Some (JObj fields) /\ In (k, v) fields).
  { intros k v Hin. unfold filter_updates in Hfilter.
    destruct updates as [[]|]; try done; injection Hfilter as <-; try done.
    apply filter_In in Hin as [Hin Hallowed]. split; [by apply includes_In|].
    eauto. }
  repeat case_match; cbn; intros Hin;
    repeat (destruct Hin as [Hin|Hin]; try done);
    injection Hin as <- <-; (split; [done|]); (split; [done|]); exact Hok.
Qed.

(** X13: a guarded route runs only with the database connected and a token
    that verifies, and the database is checked first.  Either the database
    is connected, the [Authorization] header starts with [Bearer ], its
    second space-separated word verifies and the route runs for the
    [userId] of that token; or the route does not run: the store is not
    called, nothing is broadcast, and the status is 503 when the database
    is offline, whatever the header, and 401 otherwise. *)
Theorem guarded_route_needs_database_and_token verify dbConnected authHeader
    (handler : string -> HttpResult) :
  (exists header token decoded,
     dbConnected = true
     /\ authHeader = Some header
     /\ String.prefix "Bearer " header = true
     /\ split " " header !! 1 = Some token
     /\ verify token = Some decoded
     /\ protected verify dbConnected authHeader handler
        = handler (jwt_userId decoded))
  \/ (calls (protected verify dbConnected authHeader handler) = []
      /\ pushed (protected verify dbConnected authHeader handler) = []
      /\ status (response (protected verify dbConnected authHeader handler))
         = if dbConnected then 401 else 503).
Proof.
  unfold protected, authenticate. destruct dbConnected; [|by right].
  destruct authHeader as [header|]; [|by right].
  destruct (String.eqb header EmptyString); cbn [orb]; [by right|].
  destruct (String.prefix "Bearer " header) eqn:Hprefix; cbn [negb]; [|by right].
  destruct (split " " header !! 1) as [token|] eqn:Htoken; [|by right].
  destruct (verify token) as [decoded|] eqn:Hverify; [|by right].
  left. by exists header, token, decoded.
Qed.

End HttpFacts.

(** A post of three spaces, and a comment of nothing. *)
Lemma blank_content_is_rejected_witness :
  create_post (C := Demo.collaborators) Demo2.trim Demo.alice_and_bob_state
    Demo.alice (Some (JObj [("content", JStr "   ")])) 1%Z 1%Z
    (Resolved (Demo.stored "   "))
  = respond (C := Demo.collaborators) 400
      (message_body "Post content is required") []
  /\ create_comment (C := Demo.collaborators) Demo2.trim Demo.alice_and_bob_state
       "p1" Demo.alice (Some (JObj [("content", JStr "   ")])) 1%Z 1%Z
       (Resolved (Demo.stored "   "))
     = respond (C := Demo.collaborators) 400
         (message_body "Comment content is required") [].
Proof.
  apply (blank_content_is_rejected (C := Demo.collaborators) Demo2.trim);
    [discriminate|].
  right. exists "   ". split; reflexivity.
Defined.

(** A post whose content is the number 5. *)
Lemma non_string_content_is_a_server_error_witness :
  create_post (C := Demo.collaborators) Demo2.trim Demo.alice_and_bob_state
    Demo.alice (Some (JObj [("content", JNum 5)])) 1%Z 1%Z
    (Resolved (Demo.stored "5"))
  = respond (C := Demo.collaborators) 500
      (message_body "Failed to create post") []
  /\ create_comment (C := Demo.collaborators) Demo2.trim Demo.alice_and_bob_state
       "p1" Demo.alice (Some (JObj [("content", JNum 5)])) 1%Z 1%Z
       (Resolved (Demo.stored "5"))
     = respond (C := Demo.collaborators) 500
         (message_body "Failed to create comment") [].
Proof.
  apply (non_string_content_is_a_server_error (C := Demo.collaborators)
           Demo2.trim _ _ _ _ (JNum 5)); [reflexivity|reflexivity|discriminate].
Defined.

(** Alice follows bob; the follow is stored and the notification fails. *)
Lemma follow_stored_but_not_announced_witness :
  calls (follow_user (C := Demo.collaborators) Demo.alice_and_bob_state
           Demo.bob Demo.alice 1%Z 2%Z (Resolved (JStr "follow")) (Rejected None))
  = [CreateFollow Demo.alice Demo.bob 1%Z;
     CreateNotification Demo.bob Demo.alice 2%Z]
  /\ pushed (follow_user (C := Demo.collaborators) Demo.alice_and_bob_state
               Demo.bob Demo.alice 1%Z 2%Z (Resolved (JStr "follow"))
               (Rejected None))
     = [].
Proof.
  destruct (follow_stored_but_not_announced (C := Demo.collaborators)
              Demo.alice_and_bob_state Demo.bob Demo.alice 1%Z 2%Z
              (JStr "follow") None (Rejected None) (Rejected None))
    as (_ & Hcalls & Hpushed & _); [discriminate|].
  split; [exact Hcalls|exact Hpushed].
Defined.

(** A body that asks for a new bio and for the role of an administrator. *)
Lemma profile_update_keeps_allowed_fields_witness :
  Demo.alice = Demo.alice
  /\ pushed (update_profile (C := Demo.collaborators) Demo.alice
               (Some (JObj [("role", JStr "admin"); ("bio", JStr "hello")]))
               (Resolved 1) (Resolved JNull))
     = []
  /\ forall k v,
       In (k, v) [("bio", JStr "hello")] ->
       In k allowedFields
       /\ exists fields,
            Some (JObj [("role", JStr "admin"); ("bio", JStr "hello")])
            = Some (JObj fields)
            /\ In (k, v) fields.
Proof.
  apply (profile_update_keeps_allowed_fields (C := Demo.collaborators)
           Demo.alice
           (Some (JObj [("role", JStr "admin"); ("bio", JStr "hello")]))
           (Resolved 1) (Resolved JNull) Demo.alice [("bio", JStr "hello")]).
  left. reflexivity.
Defined.

(** * The authentication middleware *)

Section BearerTokens.

Variable verify : string -> option JWTPayload.

Lemma split_word t : no_space t = true -> split " " t = [t].
Proof.
  unfold no_space.
  induction t as [|c t IH]; cbn [split list_ascii_of_string forallb]; [done|].
  intros H. apply andb_prop in H as [Hc Ht].
  apply negb_true_iff in Hc. rewrite Hc, (IH Ht). done.
Qed.

Lemma split_first_word t rest :
  no_space t = true ->
  split " " (t +:+ " " +:+ rest) = t :: split " " rest.
Proof.
  unfold no_space.
  induction t as [|c t IH];
    cbn [list_ascii_of_string forallb]; [done|].
  intros H. apply andb_prop in H as [Hc Ht].
  apply negb_true_iff in Hc.
  change (String c t +:+ " " +:+ rest) with (String c (t +:+ " " +:+ rest)).
  cbn [split]. rewrite Hc, (IH Ht). done.
Qed.

Lemma prefix_append p s : String.prefix p (p +:+ s) = true.
Proof.
  induction p as [|c p IH]; [by destruct s|].
  change (String c p +:+ s) with (String c (p +:+ s)). cbn [String.prefix].
  destruct (ascii_dec c c); [exact IH|congruence].
Qed.

(** X14: the middleware reads back the token that a client puts in
    [Authorization: Bearer <token>].  For a token without a space, the
    verifier is asked about exactly that token: the request goes on, with
    [req.userId] the [userId] of the decoded token, when it verifies, and
    is answered 401 when it does not.  Whatever follows a space after the
    token is ignored. *)
Theorem bearer_token_round_trip t rest :
  no_space t = true ->
  authenticate verify (Some ("Bearer " +:+ t))
  = match verify t with
    | Some decoded => Next decoded (jwt_userId decoded)
    | None => Unauthorized "Invalid or expired token"
                           (Some "Invalid or expired access token")
    end
  /\ authenticate verify (Some ("Bearer " +:+ t +:+ " " +:+ rest))
     = authenticate verify (Some ("Bearer " +:+ t)).
Proof.
  intros Ht.
  assert (H1 : split " " ("Bearer " +:+ t) !! 1 = Some t).
  { change ("Bearer " +:+ t) with ("Bearer" +:+ " " +:+ t).
    rewrite (split_first_word "Bearer") by done. by rewrite split_word. }
  assert (H2 : split " " ("Bearer " +:+ t +:+ " " +:+ rest) !! 1 = Some t).
  { change ("Bearer " +:+ t +:+ " " +:+ rest)
      with ("Bearer" +:+ " " +:+ (t +:+ " " +:+ rest)).
    rewrite (split_first_word "Bearer") by done.
    by rewrite split_first_word. }
  unfold authenticate.
  rewrite H1, H2, !(prefix_append "Bearer "). done.
Qed.

End BearerTokens.

Lemma bearer_token_round_trip_witness :
  authenticate Demo2.verify (Some "Bearer jwt.alice")
  = Next {| jwt_userId := "alice"; jwt_username := "user"; jwt_role := "user" |}
         "alice"
  /\ authenticate Demo2.verify (Some "Bearer jwt.alice and more")
     = authenticate Demo2.verify (Some "Bearer jwt.alice").
Proof.
  apply (bearer_token_round_trip Demo2.verify "jwt.alice" "and more").
  reflexivity.
Defined.

(** * The rate limiter *)

Section RateLimiter.

Implicit Types attempts : gmap string RateLimitAttempt.

Lemma rateLimit_other attempts c c' now :
  c <> c' -> fst (rateLimit attempts c' now) !! c = attempts !! c.
Proof.
  intros Hne. unfold rateLimit. repeat case_match; cbn; try done;
    by rewrite lookup_insert_ne.
Qed.

Lemma rateLimit_counts attempts c now :
  (forall c' a, attempts !! c' = Some a -> 1 <= count a <= maxAttempts) ->
  forall c' a,
    fst (rateLimit attempts c now) !! c' = Some a -> 1 <= count a <= maxAttempts.
Proof.
  intros Hok c' a. destruct (decide (c = c')) as [<-|Hne].
  - unfold rateLimit.
    destruct (attempts !! c) as [old|] eqn:Hold; [|].
    + destruct (resetTime old <? now)%Z; cbn [fst].
      * rewrite lookup_insert_eq. intros [= <-]. cbn. unfold maxAttempts. lia.
      * destruct (Nat.leb maxAttempts (count old)) eqn:Hfull; cbn [fst].
        -- intros Hsame. apply (Hok c). congruence.
        -- rewrite lookup_insert_eq. intros [= <-]. cbn [count].
           apply Nat.leb_gt in Hfull. lia.
    + cbn [fst]. rewrite lookup_insert_eq. intros [= <-]. cbn. unfold maxAttempts. lia.
  - rewrite rateLimit_other by done. apply Hok.
Qed.

(** X15: a limiter never counts a client beyond the limit.  After any
    sequence of requests through a limiter that started empty, the count
    that it holds for a client is between 1 and [maxAttempts], which is
    5. *)
Theorem rate_limit_counts_stay_in_range requests c a :
  fst (rateLimit_all ∅ requests) !! c = Some a ->
  1 <= count a <= maxAttempts.
Proof.
  assert (Hgen : forall attempts,
            (forall c' a', attempts !! c' = Some a' -> 1 <= count a' <= maxAttempts) ->
            forall c' a', fst (rateLimit_all attempts requests) !! c' = Some a' ->
                          1 <= count a' <= maxAttempts).
  { induction requests as [|[c0 now] requests IH]; intros attempts Hok; [done|].
    cbn [rateLimit_all].
    pose proof (rateLimit_counts attempts c0 now Hok) as Hok1.
    destruct (rateLimit attempts c0 now) as [attempts1 d]. cbn in Hok1.
    specialize (IH attempts1 Hok1).
    by destruct (rateLimit_all attempts1 requests). }
  apply Hgen. intros c' a'. by rewrite lookup_empty.
Qed.

Lemma passes_cons c c0 d ds :
  passes c ((c0, d) :: ds)
  = (if String.eqb c0 c && match d with Pass => true | TooMany _ => false end
     then 1 else 0) + passes c ds.
Proof. unfold passes. cbn. by case_match. Qed.

Lemma requests_of_cons c c0 now requests :
  requests_of c ((c0, now) :: requests)
  = if String.eqb c0 c then now :: requests_of c requests
    else requests_of c requests.
Proof. unfold requests_of. cbn. by case_match. Qed.

(** Inside the window of a client: each request of the client is let
    through until its count reaches the limit. *)
Lemma passes_inside_window requests : forall attempts c a,
  attempts !! c = Some a ->
  1 <= count a <= maxAttempts ->
  Forall (fun now => (now <= resetTime a)%Z) (requests_of c requests) ->
  passes c (snd (rateLimit_all attempts requests))
  = Nat.min (length (requests_of c requests)) (maxAttempts - count a).
Proof.
  induction requests as [|[c0 now] requests IH]; intros attempts c a Ha Hcount Hin.
  - done.
  - cbn [rateLimit_all]. rewrite requests_of_cons in *.
    destruct (String.eqb_spec c0 c) as [->|Hne].
    + apply Forall_cons in Hin as [Hnow Hin].
      unfold rateLimit at 1. rewrite Ha.
      assert (Hlate : (resetTime a <? now)%Z = false) by (apply Z.ltb_ge; lia).
      rewrite Hlate.
      destruct (Nat.leb maxAttempts (count a)) eqn:Hfull.
      * apply Nat.leb_le in Hfull.
        specialize (IH attempts c a Ha Hcount Hin).
        destruct (rateLimit_all attempts requests) as [attempts2 ds]. cbn [snd] in *.
        rewrite passes_cons, String.eqb_refl, IH. cbn [andb].
        replace (maxAttempts - count a) with 0 by lia. lia.
      * apply Nat.leb_gt in Hfull.
        specialize (IH (<[c := {| count := S (count a); resetTime := resetTime a |}]> attempts)
                      c {| count := S (count a); resetTime := resetTime a |}).
        rewrite lookup_insert_eq in IH.
        specialize (IH eq_refl ltac:(cbn; lia) Hin).
        destruct (rateLimit_all _ requests) as [attempts2 ds]. cbn [snd] in *.
        rewrite passes_cons, String.eqb_refl, IH. cbn [andb length count].
        lia.
    + pose proof (rateLimit_other attempts c c0 now ltac:(congruence)) as Hother.
      destruct (rateLimit attempts c0 now) as [attempts1 d]. cbn in Hother.
      rewrite Ha in Hother.
      specialize (IH attempts1 c a Hother Hcount Hin).
      destruct (rateLimit_all attempts1 requests) as [attempts2 ds]. cbn [snd] in *.
      rewrite passes_cons.
      apply String.eqb_neq in Hne. by rewrite Hne.
Qed.

(** X16: one limiter lets a client through at most [maxAttempts] times per
    window.  From the first request of a client, at time [t0], and as long
    as its requests come no later than [t0 + windowMs], the client is let
    through for its first five requests and for no other, whatever the
    other clients do in between. *)
Theorem at_most_five_requests_per_window attempts c t0 requests :
  attempts !! c = None ->
  Forall (fun now => (now <= t0 + windowMs)%Z) (requests_of c requests) ->
  passes c (snd (rateLimit_all attempts ((c, t0) :: requests)))
  = Nat.min (S (length (requests_of c requests))) maxAttempts.
Proof.
  intros Hnone Hin. cbn [rateLimit_all]. unfold rateLimit at 1. rewrite Hnone.
  pose proof (passes_inside_window requests
                (<[c := {| count := 1; resetTime := (t0 + windowMs)%Z |}]> attempts)
                c {| count := 1; resetTime := (t0 + windowMs)%Z |}) as Hrest.
  rewrite lookup_insert_eq in Hrest.
  specialize (Hrest eq_refl ltac:(cbn; unfold maxAttempts; lia) Hin).
  destruct (rateLimit_all _ requests) as [attempts2 ds]. cbn [snd] in *.
  rewrite passes_cons, String.eqb_refl, Hrest. cbn [andb count].
  unfold maxAttempts. lia.
Qed.

Lemma ceil_seconds_bounds x :
  (1000 * (ceil_seconds x - 1) < x <= 1000 * ceil_seconds x)%Z.
Proof.
  unfold ceil_seconds.
  pose proof (Z.div_mod (- x) 1000 ltac:(lia)) as Hdiv.
  pose proof (Z.mod_pos_bound (- x) 1000 ltac:(lia)) as Hmod.
  lia.
Qed.

(** X17: a request over the limit changes nothing and is told how long to
    wait.  When the count of a client has reached [maxAttempts] and its
    window has not passed, the request is answered 429, the limiter's map is
    left as it was (so retrying does not extend the window), and
    [retryAfter] is the time left in the window in seconds, rounded up: it
    is not negative and exceeds the time left by less than a second. *)
Theorem blocked_request_changes_nothing attempts c a now :
  attempts !! c = Some a ->
  (now <= resetTime a)%Z ->
  maxAttempts <= count a ->
  exists retryAfter,
    rateLimit attempts c now = (attempts, TooMany retryAfter)
    /\ (0 <= retryAfter)%Z
    /\ (1000 * (retryAfter - 1) < resetTime a - now <= 1000 * retryAfter)%Z.
Proof.
  intros Ha Hnow Hfull. exists (ceil_seconds (resetTime a - now)).
  unfold rateLimit. rewrite Ha.
  assert (Hlate : (resetTime a <? now)%Z = false) by (apply Z.ltb_ge; lia).
  apply Nat.leb_le in Hfull. rewrite Hlate, Hfull.
  pose proof (ceil_seconds_bounds (resetTime a - now)). repeat split; lia.
Qed.

(** X18: the advertised wait is one millisecond short.  A client over the
    limit that comes back exactly when its window ends is rejected again,
    with [retryAfter] 0, and is let through one millisecond later.  So when
    the time left is a whole number of seconds, the client that waits the
    [retryAfter] seconds it was told is rejected once more. *)
Theorem retry_after_the_advertised_wait_is_rejected attempts c a now :
  attempts !! c = Some a ->
  maxAttempts <= count a ->
  (now <= resetTime a)%Z ->
  ((resetTime a - now) mod 1000 = 0)%Z ->
  rateLimit attempts c (now + 1000 * ceil_seconds (resetTime a - now))
  = (attempts, TooMany 0)
  /\ rateLimit attempts c (resetTime a) = (attempts, TooMany 0)
  /\ snd (rateLimit attempts c (resetTime a + 1)) = Pass.
Proof.
  intros Ha Hfull Hnow Hmod.
  assert (Hexact : (now + 1000 * ceil_seconds (resetTime a - now) = resetTime a)%Z).
  { pose proof (ceil_seconds_bounds (resetTime a - now)) as Hb.
    apply Z.mod_divide in Hmod as [q Hq]; [|lia]. lia. }
  rewrite Hexact.
  assert (Hat : rateLimit attempts c (resetTime a) = (attempts, TooMany 0)).
  { unfold rateLimit. rewrite Ha, Z.ltb_irrefl.
    apply Nat.leb_le in Hfull. rewrite Hfull.
    by rewrite Z.sub_diag. }
  split; [done|]. split; [done|].
  unfold rateLimit. rewrite Ha.
  assert (Hlate : (resetTime a <? resetTime a + 1)%Z = true) by (apply Z.ltb_lt; lia).
  by rewrite Hlate.
Qed.

(** X19: as it is mounted, the limiter limits nothing.  The authentication
    router makes a new limiter, with an empty map, for each request; every
    request of every sequence is let through, and a client passes as many
    times as it asks. *)
Theorem mounted_limiter_never_rejects requests c :
  Forall (fun r => mounted_rateLimit (fst r) (snd r) = Pass) requests
  /\ passes c (map (fun r => (fst r, mounted_rateLimit (fst r) (snd r))) requests)
     = length (requests_of c requests).
Proof.
  split.
  - apply Forall_forall. intros [c0 now] _. unfold mounted_rateLimit, rateLimit.
    by rewrite lookup_empty.
  - induction requests as [|[c0 now] requests IH]; [done|].
    cbn [map fst snd]. rewrite passes_cons, requests_of_cons, IH.
    unfold mounted_rateLimit, rateLimit. rewrite lookup_empty. cbn.
    destruct (String.eqb c0 c); cbn; lia.
Qed.

End RateLimiter.

Lemma rate_limit_counts_stay_in_range_witness :
  1 <= count {| count := 3; resetTime := 900000 |} <= maxAttempts.
Proof.
  apply (rate_limit_counts_stay_in_range
           [("c", 0%Z); ("d", 1%Z); ("c", 2%Z); ("c", 3%Z)] "c").
  vm_compute. reflexivity.
Defined.

(** One client asks seven times within a second; another asks in between. *)
Lemma at_most_five_requests_per_window_witness :
  passes "c"
    (snd (rateLimit_all ∅
            [("c", 0%Z); ("c", 100%Z); ("d", 150%Z); ("c", 200%Z); ("c", 300%Z);
             ("c", 400%Z); ("c", 500%Z); ("c", 600%Z)]))
  = 5.
Proof.
  apply (at_most_five_requests_per_window ∅ "c" 0%Z
           [("c", 100%Z); ("d", 150%Z); ("c", 200%Z); ("c", 300%Z);
            ("c", 400%Z); ("c", 500%Z); ("c", 600%Z)]).
  - reflexivity.
  - unfold requests_of, windowMs. cbn [List.filter map fst snd String.eqb Ascii.eqb Bool.eqb].
    repeat (apply List.Forall_cons; [lia|]). apply List.Forall_nil.
Defined.

Lemma blocked_request_changes_nothing_witness :
  exists retryAfter,
    rateLimit Demo2.full_limiter "c" 1%Z
    = (Demo2.full_limiter, TooMany retryAfter)
    /\ (0 <= retryAfter)%Z
    /\ (1000 * (retryAfter - 1) < 1000 - 1 <= 1000 * retryAfter)%Z.
Proof.
  apply (blocked_request_changes_nothing Demo2.full_limiter "c"
           {| count := 5; resetTime := 1000 |} 1%Z).
  - vm_compute. reflexivity.
  - vm_compute. discriminate.
  - vm_compute. lia.
Defined.

(** A client is told at time 0 to wait one second, and comes back at time
    1000. *)
Lemma retry_after_the_advertised_wait_is_rejected_witness :
  rateLimit Demo2.full_limiter "c" 0%Z = (Demo2.full_limiter, TooMany 1)
  /\ rateLimit Demo2.full_limiter "c" 1000%Z = (Demo2.full_limiter, TooMany 0)
  /\ snd (rateLimit Demo2.full_limiter "c" 1001%Z) = Pass.
Proof.
  destruct (retry_after_the_advertised_wait_is_rejected Demo2.full_limiter "c"
              {| count := 5; resetTime := 1000 |} 0%Z)
    as (_ & Hat & Hafter).
  - vm_compute. reflexivity.
  - vm_compute. lia.
  - vm_compute. discriminate.
  - reflexivity.
  - split; [reflexivity|]. split; [exact Hat|exact Hafter].
Defined.

(** * The store's [createMessage] *)

Section StoreFacts.

Context `{C : Collaborators}.

Variable V : Type.
Variable date_value : Date -> V.
Variable to_json : document V -> Message.

Lemma field_assign_eq k v (d : document V) : field V k (assign V k v d) = Some v.
Proof.
  induction d as [|[k' v'] d IH]; cbn.
  - by rewrite String.eqb_refl.
  - destruct (String.eqb_spec k k') as [->|Hne]; cbn.
    + by rewrite String.eqb_refl.
    + destruct (String.eqb_spec k k'); [done|apply IH].
Qed.

Lemma field_assign_ne k k' v (d : document V) :
  k <> k' -> field V k' (assign V k v d) = field V k' d.
Proof.
  intros Hne. induction d as [|[k0 v0] d IH]; cbn.
  - destruct (String.eqb_spec k' k); [congruence|done].
  - destruct (String.eqb_spec k k0) as [->|Hk]; cbn.
    + destruct (String.eqb_spec k' k0); [congruence|done].
    + destruct (String.eqb_spec k' k0); [done|apply IH].
Qed.

(** X20: the message that [createMessage] resolves to carries the store's
    time and the driver's id.  When the insert and the conversation update
    succeed, the resolved message has the inserted id as [_id] and the
    store's own [new Date()] as [createdAt] and [updatedAt], replacing
    whatever [createdAt] the caller had put in [messageData]; every other
    property is the caller's.  Two calls are made, in this order: the
    insert into [messages], then one update of the conversation that
    [messageData.conversationId] names, setting [lastMessage] to that id
    and [lastMessageAt] to that [createdAt]. *)
Theorem created_message_carries_store_time_and_id messageData now1 now2 now3 now4
    insertedId :
  exists message stored,
    createMessage V date_value true true messageData now1 now2 now3 now4
      (Resolved insertedId) (Resolved tt)
    = ([InsertOne V "messages" stored;
        UpdateOne V "conversations"
          [("conversationId", field V "conversationId" messageData)]
          [("lastMessage", Some insertedId);
           ("lastMessageAt", Some (date_value now1));
           ("updatedAt", Some (date_value now4))]],
       Resolved message)
    /\ field V "_id" message = Some insertedId
    /\ field V "createdAt" message = Some (date_value now1)
    /\ field V "updatedAt" message = Some (date_value now2)
    /\ field V "createdAt" stored = Some (date_value now1)
    /\ forall k,
         k <> "_id" -> k <> "createdAt" -> k <> "updatedAt" ->
         field V k message = field V k messageData
         /\ field V k stored = field V k messageData.
Proof.
  eexists _, _. split; [|split; [|split; [|split; [|split]]]].
  - unfold createMessage, create, updateConversation, update.
    cbn [app assign_set String.eqb Ascii.eqb Bool.eqb].
    rewrite field_assign_eq.
    rewrite field_assign_ne by discriminate.
    rewrite field_assign_ne by discriminate.
    rewrite field_assign_eq. reflexivity.
  - apply field_assign_eq.
  - rewrite !field_assign_ne by discriminate. apply field_assign_eq.
  - rewrite field_assign_ne by discriminate. apply field_assign_eq.
  - rewrite field_assign_ne by discriminate. apply field_assign_eq.
  - intros k H1 H2 H3. split; rewrite !field_assign_ne by congruence; done.
Qed.

(** X21: a message can be stored and still be reported as failed.  When
    the insert succeeds and the conversation update that follows it fails
    (the driver rejects it, or the database is no longer connected),
    [createMessage] rejects although the message is in the store; the
    socket handler that awaits it then sends the sender the [error] frame
    and sends nothing else: no [message_sent], and no [new_message] to the
    recipient. *)
Theorem message_stored_but_reported_failed st k ws data messageData
    now1 now2 now3 now4 insertedId connected' updated :
  pending st !! k = Some (AwaitCreateMessage ws data) ->
  connected' = false \/ (exists error, updated = Rejected error) ->
  let result := createMessage V date_value true connected' messageData
                  now1 now2 now3 now4 (Resolved insertedId) updated in
  (exists stored rest, fst result = InsertOne V "messages" stored :: rest)
  /\ (exists error, snd result = Rejected error)
  /\ step st (Settle k (settled V to_json (snd result)))
     = (with_pending st (delete k (pending st)), reply ws error_frame).
Proof.
  intros Hk Hfail result.
  assert (Hres : (exists stored rest, fst result = InsertOne V "messages" stored :: rest)
                 /\ exists error, snd result = Rejected error).
  { subst result. unfold createMessage, create, updateConversation, update.
    destruct Hfail as [->|[error ->]].
    - split; eexists; [eexists|]; reflexivity.
    - destruct connected'; (split; eexists; [eexists|]; reflexivity). }
  destruct Hres as [Hcalls [error Herror]].
  split; [done|]. split; [by exists error|].
  rewrite Herror. cbn [settled].
  by rewrite (step_settle_send_message _ _ _ _ _ Hk).
Qed.

End StoreFacts.

(** Alice's message to bob is inserted, and the update of the conversation
    is rejected. *)
Lemma message_stored_but_reported_failed_witness :
  let st := fst (step (C := Demo.collaborators) Demo.alice_and_bob_state
                   (Incoming 0 (Some (Demo.send_message Demo.bob "hi")) 7%Z)) in
  let result := createMessage string Demo2.date_string true true
                  Demo2.message_document 1%Z 2%Z 3%Z 4%Z
                  (Resolved "cccccccccccccccccccccccc") (Rejected None) in
  (exists stored rest, fst result = InsertOne string "messages" stored :: rest)
  /\ (exists error, snd result = Rejected error)
  /\ step (C := Demo.collaborators) st
       (Settle 0 (settled string Demo2.document_json (snd result)))
     = (with_pending st (delete 0 (pending st)),
        reply (C := Demo.collaborators) 0 error_frame).
Proof.
  apply (message_stored_but_reported_failed (C := Demo.collaborators) string
           Demo2.date_string Demo2.document_json _ 0 0
           (Demo.send_message Demo.bob "hi")).
  - reflexivity.
  - right. by exists None.
Defined.
